(** * SleepFormer: the ActiNet-CRF pipeline of [actinetcrf.py]

    A shallow embedding of the windowing code ([SleepDataset.preprocess_data])
    and of the inference and event-extraction code ([predict_events]),
    together with the properties stated about them.

    Python lists and numpy vectors are Rocq lists, a Python dict iterated with
    [.items()] is an association list in insertion order, and code that can
    raise runs in the [result] monad below. *)

From Stdlib Require Import List Bool Arith ZArith QArith Lia.
From Stdlib Require String.
Import ListNotations String.StringSyntax.
Open Scope string_scope.
Open Scope list_scope.
Open Scope nat_scope.

Abbreviation string := String.string.

Set Implicit Arguments.

(** ** Exceptions and the error monad *)

(** The Python exceptions that the modelled code can raise. *)
Inductive exn : Type :=
| IndexError          (* [xs[0]] on an empty sequence *)
| UnboundLocalError   (* a local variable read before any assignment *)
| ValueError          (* [range] with a zero step *)
| BdbQuit.            (* the debugger session entered by [breakpoint()] was quit *)

Inductive result (A : Type) : Type :=
| Ok (a : A)
| Raise (e : exn).

Arguments Ok {A} a.
Arguments Raise {A} e.

Definition bind {A B : Type} (m : result A) (k : A -> result B) : result B :=
  match m with
  | Ok a => k a
  | Raise e => Raise e
  end.

Notation "x <- m ;; k" := (bind m (fun x => k))
  (at level 61, m at next level, right associativity).

(** A [for] loop whose body may raise: the first exception ends the loop. *)
Fixpoint for_each {A S : Type} (body : S -> A -> result S) (xs : list A) (s : S)
  : result S :=
  match xs with
  | [] => Ok s
  | x :: rest => s' <- body s x ;; for_each body rest s'
  end.

(** ** Python sequence primitives *)

(** [xs[0]]. *)
Definition index0 {A : Type} (xs : list A) : result A :=
  match xs with
  | [] => Raise IndexError
  | x :: _ => Ok x
  end.

(** [xs[lo:hi]] for non-negative bounds; Python clamps both bounds to the
    length of [xs], which [skipn] and [firstn] do as well. *)
Definition py_slice {A : Type} (lo hi : nat) (xs : list A) : list A :=
  firstn (hi - lo) (skipn lo xs).

(** [range(start, stop, step)] for non-negative arguments: the values
    [start + k*step] below [stop].  A zero step is a [ValueError]. *)
Definition py_range (start stop step : nat) : result (list nat) :=
  if step =? 0 then Raise ValueError
  else Ok (map (fun k => start + k * step)
               (seq 0 ((stop - start + (step - 1)) / step))).

(** [Series.unique()]: the distinct values in order of first appearance. *)
Fixpoint unique_from (seen : list string) (xs : list string) : list string :=
  match xs with
  | [] => []
  | x :: rest =>
      if existsb (String.eqb x) seen then unique_from seen rest
      else x :: unique_from (x :: seen) rest
  end.

Definition unique (xs : list string) : list string := unique_from [] xs.

(** ** Numeric cells

    The numeric columns hold floating-point numbers and the code only moves
    them around and casts them.  The casts are kept as operations of an
    interface, so that every statement below holds whatever their rounding
    is. *)
Class NumpyScalars : Type := {
  scalar : Type;
  (** [.astype(np.float32)] on one cell *)
  astype_float32 : scalar -> scalar;
  (** [.astype(float)] on one cell *)
  astype_float : scalar -> scalar;
  (** [.view('float') / 10 ** 9] on one parsed instant, given in nanoseconds *)
  view_float_seconds : Z -> scalar;
  (** [int(x)] *)
  py_int : scalar -> Z
}.

(** Exact rationals as cells: casts keep the value, [int] truncates towards
    zero.  Used for the concrete runs below. *)
#[export] Instance exact_scalars : NumpyScalars := {|
  scalar := Q;
  astype_float32 := fun q => q;
  astype_float := fun q => q;
  view_float_seconds := fun ns => Qmake ns 1000000000;
  py_int := fun q => Z.quot (Qnum q) (Zpos (Qden q))
|}.

(** What [pd.to_datetime] makes of one cell of the [timestamp] column. *)
Inductive TimestampCell : Type :=
| Parsed (epoch_ns : Z)       (* a well-formed timestamp and its instant *)
| Malformed (raw : string).   (* text that [pd.to_datetime] rejects *)

(** [pd.to_datetime(column, utc=True)]: every cell has to parse. *)
Fixpoint to_datetime (cells : list TimestampCell) : option (list Z) :=
  match cells with
  | [] => Some []
  | Parsed ns :: rest =>
      match to_datetime rest with
      | Some out => Some (ns :: out)
      | None => None
      end
  | Malformed _ :: _ => None
  end.

(** What the session entered by [breakpoint()] ends with: the user lets the
    program continue (also the case when the hook is disabled), or quits. *)
Inductive hook_outcome : Type := Resume | Quit.

(** ** The Windower: [SleepDataset] *)

Module Windower.
Section Defs.
Context {NS : NumpyScalars}.

(** One row of the parquet file.  The [label] column is read only when
    [is_test] is false.  Every frame here has that column; on a frame
    without it line 45 raises [KeyError] in training mode, which is not
    among the runs described. *)
Record Row : Type := {
  col_series_id : string;
  col_anglez : scalar;
  col_enmo : scalar;
  col_timestamp : TimestampCell;
  col_step : scalar;
  col_label : scalar
}.

Definition DataFrame : Type := list Row.

(** One entry of [data_chunks]; the key ['label'] is absent in test mode. *)
Record Chunk : Type := {
  series_id : string;
  step : list scalar;
  timestamp : list scalar;
  data : list (scalar * scalar);
  label : option (list scalar)
}.

(** [self.data[self.data['series_id'] == series_id]] *)
Definition select_series (df : DataFrame) (sid : string) : DataFrame :=
  filter (fun r => String.eqb (col_series_id r) sid) df.

(** [series_data[['anglez', 'enmo']].values.astype(np.float32)] *)
Definition feature_matrix (series_data : DataFrame) : list (scalar * scalar) :=
  map (fun r => (astype_float32 (col_anglez r), astype_float32 (col_enmo r)))
      series_data.

(** [pd.to_datetime(series_data['timestamp'], utc=True).view('float').values / 10 ** 9];
    [None] stands for the exception of a failed parse. *)
Definition timestamp_vector (series_data : DataFrame) : option (list scalar) :=
  option_map (map view_float_seconds)
             (to_datetime (map col_timestamp series_data)).

(** [series_data['step'].values.astype(np.float32)] *)
Definition step_vector (series_data : DataFrame) : list scalar :=
  map (fun r => astype_float32 (col_step r)) series_data.

(** [series_data['label'].values] *)
Definition label_values (series_data : DataFrame) : list scalar :=
  map col_label series_data.

(** The body of the loop [for i in range(0, len(data), self.sequence_length)].
    [timestamp] is the local variable of that name: [None] while unbound. *)
Definition chunk_body (sequence_length : nat) (is_test : bool)
    (sid : string) (series_data : DataFrame)
    (data : list (scalar * scalar)) (timestamp : option (list scalar))
    (step : list scalar)
    (data_chunks : list Chunk) (i : nat) : result (list Chunk) :=
  let chunk_data := py_slice i (i + sequence_length) data in
  ts <- match timestamp with
        | Some ts => Ok ts
        | None => Raise UnboundLocalError
        end ;;
  let chunk_timestamp := py_slice i (i + sequence_length) ts in
  let chunk_step := py_slice i (i + sequence_length) step in
  if length chunk_data =? sequence_length then
    if negb is_test then
      let label :=
        map astype_float
            (py_slice i (i + sequence_length) (label_values series_data)) in
      Ok (data_chunks ++
          [ {| series_id := sid; step := chunk_step;
               timestamp := chunk_timestamp; data := chunk_data;
               label := Some label |} ])
    else
      Ok (data_chunks ++
          [ {| series_id := sid; step := chunk_step;
               timestamp := chunk_timestamp; data := chunk_data;
               label := None |} ])
  else Ok data_chunks.

(** The loop over [self.series_ids].  The state passed along is the local
    variable [timestamp] (which survives from one series to the next), the
    list [data_chunks], and the series at which [breakpoint()] was entered so
    far.  The result pairs those breakpoint calls with what the method returns
    or raises. *)
Fixpoint series_loop (hook : string -> hook_outcome)
    (sequence_length : nat) (is_test : bool) (df : DataFrame)
    (series_ids : list string)
    (timestamp : option (list scalar)) (data_chunks : list Chunk)
    (breakpoints : list string) : list string * result (list Chunk) :=
  match series_ids with
  | [] => (breakpoints, Ok data_chunks)
  | sid :: rest =>
      let series_data := select_series df sid in
      let data := feature_matrix series_data in
      let after_try (timestamp : option (list scalar))
                    (breakpoints : list string) :=
        let step := step_vector series_data in
        match
          idx <- py_range 0 (length data) sequence_length ;;
          for_each (chunk_body sequence_length is_test sid series_data
                               data timestamp step) idx data_chunks
        with
        | Ok data_chunks' =>
            series_loop hook sequence_length is_test df rest
                        timestamp data_chunks' breakpoints
        | Raise e => (breakpoints, Raise e)
        end in
      match timestamp_vector series_data with
      | Some ts => after_try (Some ts) breakpoints
      | None =>
          (* except: breakpoint() *)
          match hook sid with
          | Resume => after_try timestamp (breakpoints ++ [sid])
          | Quit => (breakpoints ++ [sid], Raise BdbQuit)
          end
      end
  end.

(** [SleepDataset.preprocess_data], with [self.series_ids] as computed by
    [__init__]. *)
Definition preprocess_data (hook : string -> hook_outcome)
    (df : DataFrame) (sequence_length : nat) (is_test : bool)
  : list string * result (list Chunk) :=
  series_loop hook sequence_length is_test df
              (unique (map col_series_id df)) None [] [].

(** The window of a series that starts at sample [k * sequence_length]:
    the same index range cut out of every column of that series. *)
Definition window_at (sequence_length : nat) (is_test : bool)
    (df : DataFrame) (sid : string) (k : nat) : Chunk :=
  let series_data := select_series df sid in
  let i := k * sequence_length in
  {| series_id := sid;
     step := py_slice i (i + sequence_length) (step_vector series_data);
     timestamp :=
       py_slice i (i + sequence_length)
         (match timestamp_vector series_data with
          | Some ts => ts
          | None => []
          end);
     data := py_slice i (i + sequence_length) (feature_matrix series_data);
     label :=
       if is_test then None
       else Some (map astype_float
                      (py_slice i (i + sequence_length)
                                (label_values series_data))) |}.

(** All the windows of one series, in order. *)
Definition series_windows (sequence_length : nat) (is_test : bool)
    (df : DataFrame) (sid : string) : list Chunk :=
  map (window_at sequence_length is_test df sid)
      (seq 0 (length (select_series df sid) / sequence_length)).

Definition is_parsed (c : TimestampCell) : bool :=
  match c with
  | Parsed _ => true
  | Malformed _ => false
  end.

(** Every timestamp cell of the frame is well-formed. *)
Definition timestamps_wellformed (df : DataFrame) : Prop :=
  forallb (fun r => is_parsed (col_timestamp r)) df = true.

(** The series [sid] of the frame has a malformed timestamp cell. *)
Definition series_malformed (df : DataFrame) (sid : string) : Prop :=
  existsb (fun r => negb (is_parsed (col_timestamp r))) (select_series df sid)
  = true.

(** The chunks of [chunks] that belong to series [sid], in order. *)
Definition windows_of (sid : string) (chunks : list Chunk) : list Chunk :=
  filter (fun c => String.eqb (series_id c) sid) chunks.

(** Field alignment of a chunk: all its vectors are the index range
    [[i, i + sequence_length)] of the columns of its own series, and
    that range lies within the series. *)
Definition aligned_at (sequence_length : nat) (is_test : bool)
    (df : DataFrame) (c : Chunk) (i : nat) : Prop :=
  let series_data := select_series df (series_id c) in
  i + sequence_length <= length series_data /\
  data c = py_slice i (i + sequence_length) (feature_matrix series_data) /\
  step c = py_slice i (i + sequence_length) (step_vector series_data) /\
  (exists ts, timestamp_vector series_data = Some ts /\
              timestamp c = py_slice i (i + sequence_length) ts) /\
  label c =
    (if is_test then None
     else Some (map astype_float
                    (py_slice i (i + sequence_length)
                              (label_values series_data)))).

End Defs.
End Windower.

(** ** Batching: [torch.utils.data.DataLoader] *)

Module Loader.
Section Defs.
Context {NS : NumpyScalars}.

(** A collated batch of test-mode chunks: one entry per chunk under every
    key.  The vectors stacked under a key are taken to have one length, as
    those of the Windower's chunks have. *)
Record Batch : Type := {
  series_id : list string;
  step : list (list scalar);
  timestamp : list (list scalar);
  data : list (list (scalar * scalar))
}.

(** The default collate function on a list of chunks whose vectors have one
    length.  On vectors of different lengths [torch.stack] raises, which is
    not among the runs described. *)
Definition default_collate (items : list Windower.Chunk) : Batch :=
  {| series_id := map Windower.series_id items;
     step := map Windower.step items;
     timestamp := map Windower.timestamp items;
     data := map Windower.data items |}.

(** [DataLoader(dataset, batch_size, shuffle=False)]: consecutive groups of
    [batch_size] items in dataset order, the last one possibly shorter; a
    batch size of zero is rejected with a [ValueError]. *)
Definition DataLoader (dataset : list Windower.Chunk) (batch_size : nat)
  : result (list Batch) :=
  idx <- py_range 0 (length dataset) batch_size ;;
  Ok (map (fun i => default_collate (py_slice i (i + batch_size) dataset)) idx).

End Defs.
End Loader.

(** ** Inference and event extraction: [predict_events] *)

Module Extractor.
Section Defs.
Context {NS : NumpyScalars}.

(** The value stored per series in [pred_dict]. *)
Record SeriesDict : Type := {
  preds : list Z;
  steps : list scalar
}.

(** [pred_dict]: series identifier to [SeriesDict], in insertion order. *)
Definition PredDict : Type := list (string * SeriesDict).

(** One entry of [prediction_rows]; [series_id] is [None] for Python's
    [None]. *)
Record PredictionRow : Type := {
  row_id : nat;
  series_id : option string;
  step : Z;
  event : string;
  score : Q
}.

(** The entry of a series in a dict, if it has one. *)
Fixpoint dict_get (d : PredDict) (sid : string) : option SeriesDict :=
  match d with
  | [] => None
  | (k, v) :: rest => if String.eqb k sid then Some v else dict_get rest sid
  end.

(** Modelled from the spec: one step of [pred_to_dict] (see below).  It
    appends one sample to the entry of [sid], and creates the entry at the end
    of the dict when [sid] is new. *)
Fixpoint dict_append (d : PredDict) (sid : string) (st : scalar) (p : Z)
  : PredDict :=
  match d with
  | [] => [(sid, {| preds := [p]; steps := [st] |})]
  | (k, v) :: rest =>
      if String.eqb k sid
      then (k, {| preds := preds v ++ [p]; steps := steps v ++ [st] |}) :: rest
      else (k, v) :: dict_append rest sid st p
  end.

(** Modelled from the spec: the loop of [pred_to_dict] (see below) over the
    three lists zipped together, from the dict [d] on. *)
Fixpoint pred_to_dict_from (d : PredDict) (series_ids : list string)
    (steps : list scalar) (predictions : list Z) : PredDict :=
  match series_ids, steps, predictions with
  | sid :: series_ids', st :: steps', p :: predictions' =>
      pred_to_dict_from (dict_append d sid st p) series_ids' steps' predictions'
  | _, _, _ => d
  end.

(** Modelled from the spec: [pred_to_dict] is called by [predict_events] and
    defined nowhere in [actinetcrf.py].  The spec (4.3, Reassembler) makes it
    a pure concatenation, per series, of the decoded labels and of their step
    indices in the order in which they arrive, with no reordering and no
    deduplication; the transition scan reads the result through the keys
    ["preds"] and ["steps"]. *)
Definition pred_to_dict (series_ids : list string) (steps : list scalar)
    (predictions : list Z) : PredDict :=
  pred_to_dict_from [] series_ids steps predictions.

(** The loop [for pred, step in zip(preds[1:], steps[1:])] of the transition
    scan, on the zipped pairs.  [curr_series] is the variable of that name. *)
Fixpoint scan_pairs (curr_series : option string) (curr_state : Z)
    (pairs : list (Z * scalar)) (prediction_rows : list PredictionRow)
  : list PredictionRow :=
  match pairs with
  | [] => prediction_rows
  | (pred, st) :: rest =>
      if negb (Z.eqb pred curr_state) then
        let curr_state := pred in
        let event := if Z.eqb curr_state 1 then "wakeup" else "onset" in
        scan_pairs curr_series curr_state rest
          (prediction_rows ++
           [ {| row_id := length prediction_rows;
                series_id := curr_series;
                step := py_int st;
                event := event;
                score := 1%Q |} ])
      else scan_pairs curr_series curr_state rest prediction_rows
  end.

(** The loop [for series_id, series_dict in pred_dict.items()].  The loop
    variable [series_id] is not read by the body, and nothing assigns
    [curr_series]. *)
Fixpoint scan_items (curr_series : option string) (items : PredDict)
    (prediction_rows : list PredictionRow) : result (list PredictionRow) :=
  match items with
  | [] => Ok prediction_rows
  | (_, series_dict) :: rest =>
      curr_state <- index0 (preds series_dict) ;;
      scan_items curr_series rest
        (scan_pairs curr_series curr_state
                    (combine (tl (preds series_dict)) (tl (steps series_dict)))
                    prediction_rows)
  end.

(** The transition scan, lines 188 to 206: [curr_series = None] and
    [prediction_rows = []] on entry, the rows as the returned table. *)
Definition transition_scan (pred_dict : PredDict)
  : result (list PredictionRow) :=
  scan_items None pred_dict [].

(** The events of one cleaned sequence as the specification words them:
    one for every adjacent pair of differing states, at the step of the
    second sample of the pair, named after the state that this sample
    enters.  The pairs are [(previous state, (state, step))]. *)
Definition adjacent_events (preds : list Z) (steps : list scalar)
  : list (Z * string) :=
  map (fun t => (py_int (snd (snd t)),
                 if Z.eqb (fst (snd t)) 1 then "wakeup" else "onset"))
      (filter (fun t => negb (Z.eqb (fst (snd t)) (fst t)))
              (combine preds (combine (tl preds) (tl steps)))).

(** Table rows for a list of events: consecutive row identifiers from
    [first_id] on, one series identifier, score 1. *)
Fixpoint number_rows (first_id : nat) (sid : option string)
    (events : list (Z * string)) : list PredictionRow :=
  match events with
  | [] => []
  | (st, ev) :: rest =>
      {| row_id := first_id; series_id := sid; step := st; event := ev;
         score := 1%Q |} :: number_rows (S first_id) sid rest
  end.

(** What [predict_events] needs of its argument [model]: the label rows
    [torch.max(model(input_data), 2)[1]], one row per window of the batch,
    or the exception that the two calls raise. *)
Definition Network : Type :=
  list (list (scalar * scalar)) -> result (list (list Z)).

Section Pipeline.

Variable predicted_labels : Network.

(** The two cleaning passes called by [predict_events]; the source file does
    not define them, and nothing is assumed about them. *)
Variable remove_outliers : PredDict -> result PredDict.
Variable get_local_best : PredDict -> result PredDict.

(** The loop [for batch in tqdm(test_loader)] with its three accumulators. *)
Fixpoint inference_loop (test_loader : list Loader.Batch)
    (predictions : list Z) (series_ids : list string) (steps : list scalar)
  : result (list Z * list string * list scalar) :=
  match test_loader with
  | [] => Ok (predictions, series_ids, steps)
  | batch :: rest =>
      let input_data := Loader.data batch in
      predicted <- predicted_labels input_data ;;
      row0 <- index0 predicted ;;
      sid0 <- index0 (Loader.series_id batch) ;;
      step0 <- index0 (Loader.step batch) ;;
      inference_loop rest
        (predictions ++ row0)
        (series_ids ++ repeat sid0 (length row0))
        (steps ++ step0)
  end.

Definition predict_events (test_loader : list Loader.Batch)
  : result (list PredictionRow) :=
  acc <- inference_loop test_loader [] [] [] ;;
  let '(predictions, series_ids, steps) := acc in
  let pred_dict := pred_to_dict series_ids steps predictions in
  pred_dict <- remove_outliers pred_dict ;;
  pred_dict <- get_local_best pred_dict ;;
  transition_scan pred_dict.

End Pipeline.

(** Two batches agree on their element at index 0: same first feature
    matrix, same first series identifier, same first step vector. *)
Definition agree_on_first (b1 b2 : Loader.Batch) : Prop :=
  hd_error (Loader.data b1) = hd_error (Loader.data b2) /\
  hd_error (Loader.series_id b1) = hd_error (Loader.series_id b2) /\
  hd_error (Loader.step b1) = hd_error (Loader.step b2).

(** [predicted.cpu().numpy()[0]] for a batch of feature matrices. *)
Definition first_row (predicted_labels : Network)
    (input_data : list (list (scalar * scalar))) : result (list Z) :=
  predicted <- predicted_labels input_data ;; index0 predicted.

(** The network labels every window of a batch on its own: the label row of
    the first window depends on the first feature matrix only. *)
Definition first_row_local (predicted_labels : Network) : Prop :=
  forall x y, hd_error x = hd_error y ->
              first_row predicted_labels x = first_row predicted_labels y.

(** The network returns one label per step of every window. *)
Definition one_label_per_step (predicted_labels : Network) : Prop :=
  forall x, exists rows,
    predicted_labels x = Ok rows /\
    map (@length Z) rows = map (@length (scalar * scalar)) x.

(** What one batch adds to [predictions], [series_ids] and [steps] when the
    loop body does not raise. *)
Definition batch_labels (predicted_labels : Network) (batch : Loader.Batch)
  : list Z :=
  match first_row predicted_labels (Loader.data batch) with
  | Ok row => row
  | Raise _ => []
  end.

Definition batch_series_ids (predicted_labels : Network)
    (batch : Loader.Batch) : list string :=
  repeat (hd "" (Loader.series_id batch))
         (length (batch_labels predicted_labels batch)).

Definition batch_steps (batch : Loader.Batch) : list scalar :=
  hd [] (Loader.step batch).

(** The label row that the network gives to a window presented alone. *)
Definition window_labels (predicted_labels : Network) (c : Windower.Chunk)
  : list Z :=
  match first_row predicted_labels [Windower.data c] with
  | Ok row => row
  | Raise _ => []
  end.

(** The label and step sequences of a dict entry; both empty when the
    series has no entry. *)
Definition entry_preds (entry : option SeriesDict) : list Z :=
  match entry with
  | Some v => preds v
  | None => []
  end.

Definition entry_steps (entry : option SeriesDict) : list scalar :=
  match entry with
  | Some v => steps v
  | None => []
  end.

End Defs.
End Extractor.

(** ** The dataset object and further views of the Windower *)

Module Dataset.
Section Defs.
Context {NS : NumpyScalars}.
Import Windower.

(** The attributes that [SleepDataset.__init__] sets. *)
Record SleepDataset : Type := {
  self_data : DataFrame;
  self_is_test : bool;
  self_sequence_length : nat;
  self_series_ids : list string;
  self_data_chunks : list Chunk
}.

(** [SleepDataset.__init__] on the frame that [pd.read_parquet] returned:
    the breakpoint calls, and the object or the exception of
    [preprocess_data]. *)
Definition init (hook : string -> hook_outcome) (parquet : DataFrame)
    (sequence_length : nat) (is_test : bool)
  : list string * result SleepDataset :=
  let run := preprocess_data hook parquet sequence_length is_test in
  (fst run,
   data_chunks <- snd run ;;
   Ok {| self_data := parquet;
         self_is_test := is_test;
         self_sequence_length := sequence_length;
         self_series_ids := unique (map col_series_id parquet);
         self_data_chunks := data_chunks |}).

(** [SleepDataset.__len__] *)
Definition len (self : SleepDataset) : nat := length (self_data_chunks self).

(** [xs[idx]] on a Python list: a negative index counts from the end, an
    index outside [[-len(xs), len(xs))] is an [IndexError]. *)
Definition py_index {A : Type} (xs : list A) (idx : Z) : result A :=
  let n := Z.of_nat (length xs) in
  let i := if (idx <? 0)%Z then (idx + n)%Z else idx in
  if ((i <? 0) || (n <=? i))%Z then Raise IndexError
  else match nth_error xs (Z.to_nat i) with
       | Some x => Ok x
       | None => Raise IndexError
       end.

(** [SleepDataset.__getitem__] *)
Definition getitem (self : SleepDataset) (idx : Z) : result Chunk :=
  py_index (self_data_chunks self) idx.

(** The number of windows of a series, and of a list of series. *)
Definition window_count (df : DataFrame) (W : nat) (sid : string) : nat :=
  length (select_series df sid) / W.

Definition window_total (df : DataFrame) (W : nat) (ids : list string)
  : nat :=
  list_sum (map (window_count df W) ids).

(** A chunk without the key ['label']. *)
Definition erase_label (c : Chunk) : Chunk :=
  {| series_id := series_id c; step := step c; timestamp := timestamp c;
     data := data c; label := None |}.

(** The boolean reading of [series_malformed]. *)
Definition series_malformedb (df : DataFrame) (sid : string) : bool :=
  existsb (fun r => negb (is_parsed (col_timestamp r))) (select_series df sid).

(** The local variable [timestamp] after the series [ids] went through the
    [try] statement, from the value [ts0] on: the vector of the last series
    that parsed, if there is one. *)
Fixpoint timestamp_in_use (df : DataFrame) (ts0 : option (list scalar))
    (ids : list string) : option (list scalar) :=
  match ids with
  | [] => ts0
  | sid :: rest =>
      timestamp_in_use df
        (match timestamp_vector (select_series df sid) with
         | Some ts => Some ts
         | None => ts0
         end) rest
  end.

(** Window [k] of a series whose timestamp slice is cut out of the vector
    [ts] instead. *)
Definition window_with (sequence_length : nat) (is_test : bool)
    (df : DataFrame) (sid : string) (ts : list scalar) (k : nat) : Chunk :=
  let series_data := select_series df sid in
  let i := k * sequence_length in
  {| series_id := sid;
     step := py_slice i (i + sequence_length) (step_vector series_data);
     timestamp := py_slice i (i + sequence_length) ts;
     data := py_slice i (i + sequence_length) (feature_matrix series_data);
     label :=
       if is_test then None
       else Some (map astype_float
                      (py_slice i (i + sequence_length)
                                (label_values series_data))) |}.

(** The chunks of a run in which every breakpoint session is resumed, for
    the series [ids] and the value [ts0] of [timestamp] before them. *)
Fixpoint resumed_windows (sequence_length : nat) (is_test : bool)
    (df : DataFrame) (ts0 : option (list scalar)) (ids : list string)
  : list Chunk :=
  match ids with
  | [] => []
  | sid :: rest =>
      let ts := timestamp_in_use df ts0 [sid] in
      map (window_with sequence_length is_test df sid
                       (match ts with Some v => v | None => [] end))
          (seq 0 (window_count df sequence_length sid))
      ++ resumed_windows sequence_length is_test df ts rest
  end.

(** A row without its label: every column that test mode reads. *)
Definition unlabelled (r : Row)
  : string * (scalar * (scalar * (TimestampCell * scalar))) :=
  (col_series_id r,
   (col_anglez r, (col_enmo r, (col_timestamp r, col_step r)))).

(** A chunk is cut out of its own series: it is window [k] of that series,
    which fits into the series, with its timestamp slice taken from some
    vector [ts]; and [ts] is the timestamp vector of the series whenever the
    timestamps of the series parse. *)
Definition cut_from_series (sequence_length : nat) (is_test : bool)
    (df : DataFrame) (c : Chunk) : Prop :=
  exists k ts,
    k < window_count df sequence_length (series_id c) /\
    c = window_with sequence_length is_test df (series_id c) ts k /\
    forall own,
      timestamp_vector (select_series df (series_id c)) = Some own ->
      ts = own.

End Defs.
End Dataset.

(** ** Further views of the inference loop and of the transition scan *)

Module Views.
Section Defs.
Context {NS : NumpyScalars}.
Import Extractor.

(** The windows of a dataset that open a batch of [batch_size] windows: the
    windows number 0, [batch_size], twice [batch_size], and so on. *)
Definition batch_heads (batch_size : nat) (dataset : list Windower.Chunk)
  : list Windower.Chunk :=
  flat_map (fun k => firstn 1 (skipn (k * batch_size) dataset))
           (seq 0 ((length dataset + (batch_size - 1)) / batch_size)).

(** Every chunk has step, timestamp and feature vectors of [W] entries.
    The default collate function stacks the vectors of a batch with
    [torch.stack], which raises on vectors of different lengths; on chunks
    of one length it returns the batch that [Loader.default_collate] gives. *)
Definition windows_of_length (W : nat) (dataset : list Windower.Chunk)
  : Prop :=
  Forall (fun c => length (Windower.step c) = W /\
                   length (Windower.timestamp c) = W /\
                   length (Windower.data c) = W) dataset.

(** A collated batch whose stacked vectors all have [W] entries. *)
Definition batch_of_length (W : nat) (b : Loader.Batch) : Prop :=
  Forall (fun v => length v = W) (Loader.step b) /\
  Forall (fun v => length v = W) (Loader.timestamp b) /\
  Forall (fun v => length v = W) (Loader.data b).

(** The name of the event that enters a state. *)
Definition event_name (state : Z) : string :=
  if Z.eqb state 1 then "wakeup" else "onset".

(** [n] event names in turn, from the one that leaves [state] on. *)
Fixpoint alternating_events (n : nat) (state : Z) : list string :=
  match n with
  | O => []
  | S n' => event_name (1 - state) :: alternating_events n' (1 - state)
  end.

(** The events of a whole dict, series after series. *)
Definition all_events (d : PredDict) : list (Z * string) :=
  concat (map (fun kv => adjacent_events (preds (snd kv)) (steps (snd kv)))
              d).

(** A row with its identifier moved up by [n]. *)
Definition shift_row (n : nat) (r : PredictionRow) : PredictionRow :=
  {| row_id := n + row_id r; series_id := series_id r; step := step r;
     event := event r; score := score r |}.

End Defs.
End Views.

(** ** Evaluation: [test_model], and the checkpoint rule of the script *)

Module Evaluation.

(** The exceptions of the evaluation code: those of the pipeline, a missing
    dict key, a division by zero, and the error that [torch] raises for
    operands whose sizes do not match. *)
Inductive py_exn : Type :=
| Pipeline (e : exn)
| KeyError
| ZeroDivisionError
| RuntimeError.

Inductive outcome (A : Type) : Type :=
| Returns (a : A)
| Raises (e : py_exn).

Arguments Returns {A} a.
Arguments Raises {A} e.

Definition and_then {A B : Type} (m : outcome A) (k : A -> outcome B)
  : outcome B :=
  match m with
  | Returns a => k a
  | Raises e => Raises e
  end.

Notation "x <~ m ;; k" := (and_then m (fun x => k))
  (at level 61, m at next level, right associativity).

(** Every row of a nested list has [cols] entries. *)
Definition rectangular (cols : nat) (rows : list (list Z)) : bool :=
  forallb (fun row => length row =? cols) rows.

(** The transpose of a nested list whose rows have [cols] entries: column
    [j] becomes row [j]. *)
Definition transpose (cols : nat) (rows : list (list Z)) : list (list Z) :=
  map (fun j => map (fun row => nth j row 0%Z) rows) (seq 0 cols).

(** [np.array(logits).T] on a list of lists of integers.  The lists have to
    be of one length, that of the first; numpy refuses ragged lists. *)
Definition np_array_T (logits : list (list Z)) : outcome (list (list Z)) :=
  let cols := length (hd [] logits) in
  if rectangular cols logits then Returns (transpose cols logits)
  else Raises (Pipeline ValueError).

(** [a == b] on two flat tensors, with the broadcasting of [torch]: equal
    sizes compare entry by entry, a tensor of one entry is compared with
    every entry of the other, and other sizes do not match. *)
Definition tensor_eq (a b : list Z) : outcome (list bool) :=
  if length a =? length b
  then Returns (map (fun p => Z.eqb (fst p) (snd p)) (combine a b))
  else match a, b with
       | [x], _ => Returns (map (Z.eqb x) b)
       | _, [y] => Returns (map (fun x => Z.eqb x y) a)
       | _, _ => Raises RuntimeError
       end.

(** [torch.sum(mask).item()] on a tensor of booleans. *)
Definition count_true (mask : list bool) : nat :=
  length (filter (fun b => b) mask).

Section Defs.
Context {NS : NumpyScalars}.

(** A batch of the validation loader, as far as [test_model] reads it; the
    key ['label'] is absent when the dataset was built in test mode. *)
Record LabelledBatch : Type := {
  data : list (list (scalar * scalar));
  label : option (list (list scalar))
}.

(** The counters and lists that the loop of [test_model] updates. *)
Record Tally : Type := {
  correct_predictions : nat;
  total_samples : nat;
  all_preds : list Z;
  all_labels : list Z
}.

Section Model.

(** [model(input_data)] in evaluation mode: the decoded label lists that
    [ActiNetCRFModel.forward] returns when it is given no tags. *)
Variable model : list (list (scalar * scalar)) -> outcome (list (list Z)).

(** [.type(torch.LongTensor)] on one label. *)
Variable to_long : scalar -> Z.

(** The three scores of [sklearn.metrics], called with
    [average='weighted'] on [all_labels] and [all_preds]. *)
Variable Score : Type.
Variable precision_score : list Z -> list Z -> outcome Score.
Variable recall_score : list Z -> list Z -> outcome Score.
Variable f1_score : list Z -> list Z -> outcome Score.

(** The body of the loop [for batch in tqdm(test_loader)]. *)
Definition test_batch (tally : Tally) (batch : LabelledBatch)
  : outcome Tally :=
  let input_data := data batch in
  labels <~ match label batch with
            | Some l => Returns (map (map to_long) l)
            | None => Raises KeyError
            end ;;
  logits <~ model input_data ;;
  logits <~ np_array_T logits ;;
  let predicted := concat logits in
  let labels_flat := concat labels in
  mask <~ tensor_eq predicted labels_flat ;;
  Returns {| correct_predictions :=
               correct_predictions tally + count_true mask;
             total_samples := total_samples tally + length labels_flat;
             all_preds := all_preds tally ++ predicted;
             all_labels := all_labels tally ++ labels_flat |}.

Fixpoint test_loop (test_loader : list LabelledBatch) (tally : Tally)
  : outcome Tally :=
  match test_loader with
  | [] => Returns tally
  | batch :: rest => tally' <~ test_batch tally batch ;; test_loop rest tally'
  end.

(** [test_model(model, test_loader, criterion)]; the argument [criterion] is
    not read.  The accuracy is the quotient of the two counters, before it
    is rounded to a float. *)
Definition test_model (test_loader : list LabelledBatch)
  : outcome (Q * Score * Score * Score) :=
  tally <~ test_loop test_loader
             {| correct_predictions := 0; total_samples := 0;
                all_preds := []; all_labels := [] |} ;;
  accuracy <~ (if total_samples tally =? 0 then Raises ZeroDivisionError
               else Returns (Qmake (Z.of_nat (correct_predictions tally))
                                   (Pos.of_nat (total_samples tally)))) ;;
  precision <~ precision_score (all_labels tally) (all_preds tally) ;;
  recall <~ recall_score (all_labels tally) (all_preds tally) ;;
  f1 <~ f1_score (all_labels tally) (all_preds tally) ;;
  Returns (accuracy, precision, recall, f1).

End Model.

(** In every batch the model returns as many labels as the batch has. *)
Definition shapes_agree
    (model : list (list (scalar * scalar)) -> outcome (list (list Z)))
    (test_loader : list LabelledBatch) : Prop :=
  Forall (fun batch =>
            forall logits l,
              model (data batch) = Returns logits ->
              label batch = Some l ->
              length (concat logits) = length (concat l))
         test_loader.

End Defs.

Section Counts.
Context {NS : NumpyScalars}.

(** The number of labels of a batch, and of a loader. *)
Definition label_count (batch : LabelledBatch) : nat :=
  match label batch with
  | Some l => length (concat l)
  | None => 0
  end.

Definition label_total (test_loader : list LabelledBatch) : nat :=
  list_sum (map label_count test_loader).

(** The model answers every batch with its labels laid out step by step:
    list [j] holds the labels of step [j] of every window of the batch. *)
Definition answers_step_major
    (model : list (list (scalar * scalar)) -> outcome (list (list Z)))
    (to_long : scalar -> Z) (test_loader : list LabelledBatch) : Prop :=
  Forall (fun batch =>
            exists l W,
              label batch = Some l /\
              rectangular W (map (map to_long) l) = true /\
              model (data batch)
              = Returns (transpose W (map (map to_long) l)))
         test_loader.

End Counts.

(** The checkpoint rule of the training script, lines 257 to 268, on the
    validation F1 scores of the epochs in turn: [best_f1] and the epochs
    after which [torch.save] is called, latest first.  A score is the
    rational that the float returned by [f1_score] denotes. *)
Fixpoint checkpoints (f1s : list Q) (epoch : nat) (best_f1 : Q)
    (saved : list nat) : Q * list nat :=
  match f1s with
  | [] => (best_f1, saved)
  | f1 :: rest =>
      if Qle_bool f1 best_f1
      then checkpoints rest (S epoch) best_f1 saved
      else checkpoints rest (S epoch) f1 (epoch :: saved)
  end.

(** What holds of [best_f1] and of the saved epochs after the scores
    [done]: no score is above [best_f1]; nothing is saved while [best_f1]
    is its initial 0; and the latest saved epoch is the first whose score is
    [best_f1]. *)
Definition checkpoint_invariant (done : list Q) (best : Q)
    (saved : list nat) : Prop :=
  Forall (fun f => (f <= best)%Q) done /\
  match saved with
  | [] => best = 0%Q
  | e :: _ =>
      (0 < best)%Q /\
      nth_error done e = Some best /\
      forall e' f, e' < e -> nth_error done e' = Some f -> (f < best)%Q
  end.

End Evaluation.

(** ** Concrete inputs

    Small frames and loaders over exact rational cells, on which the
    definitions above are run. *)

Module Examples.
Import Windower.

Definition sample (sid : string) (anglez enmo : Q) (ts : TimestampCell)
    (st : Z) (lbl : Z) : Row :=
  {| col_series_id := sid; col_anglez := anglez; col_enmo := enmo;
     col_timestamp := ts; col_step := inject_Z st; col_label := inject_Z lbl |}.

(** Two series: ["s1"] with five samples and ["s2"] with three. *)
Definition demo_frame : DataFrame :=
  [ sample "s1" (-3) 0 (Parsed 0) 0 0;
    sample "s1" (-2) 0 (Parsed 5000000000) 1 0;
    sample "s2" 4 1 (Parsed 0) 0 1;
    sample "s1" 5 1 (Parsed 10000000000) 2 1;
    sample "s2" 6 1 (Parsed 5000000000) 1 1;
    sample "s1" 7 1 (Parsed 15000000000) 3 1;
    sample "s1" (-1) 0 (Parsed 20000000000) 4 0;
    sample "s2" (-8) 0 (Parsed 10000000000) 2 0 ].

(** Series ["s1"] is well-formed; the second timestamp of ["s2"] is not. *)
Definition bad_frame : DataFrame :=
  [ sample "s1" (-3) 0 (Parsed 1000000000) 0 0;
    sample "s1" (-2) 0 (Parsed 6000000000) 1 0;
    sample "s2" 4 1 (Parsed 900000000000) 0 1;
    sample "s2" 5 1 (Malformed "2018-13-45T99:00:00") 1 1 ].

Definition always_resume : string -> hook_outcome := fun _ => Resume.
Definition always_quit : string -> hook_outcome := fun _ => Quit.

(** The windows of a frame and the batches of a dataset, when the calls
    return. *)
Definition chunks_of (df : DataFrame) (sequence_length : nat) (is_test : bool)
  : list Chunk :=
  match snd (preprocess_data always_quit df sequence_length is_test) with
  | Ok chunks => chunks
  | Raise _ => []
  end.

Definition loader_of (dataset : list Chunk) (batch_size : nat)
  : list Loader.Batch :=
  match Loader.DataLoader dataset batch_size with
  | Ok batches => batches
  | Raise _ => []
  end.

(** One series of six samples: three with a negative angle, then three with a
    positive one. *)
Definition boundary_frame : DataFrame :=
  [ sample "s1" (-1) 0 (Parsed 0) 10 0;
    sample "s1" (-1) 0 (Parsed 5000000000) 20 0;
    sample "s1" (-1) 0 (Parsed 10000000000) 30 0;
    sample "s1" 1 1 (Parsed 15000000000) 40 1;
    sample "s1" 1 1 (Parsed 20000000000) 50 1;
    sample "s1" 1 1 (Parsed 25000000000) 60 1 ].

(** The same series with the last three angles negated. *)
Definition flat_frame : DataFrame :=
  [ sample "s1" (-1) 0 (Parsed 0) 10 0;
    sample "s1" (-1) 0 (Parsed 5000000000) 20 0;
    sample "s1" (-1) 0 (Parsed 10000000000) 30 0;
    sample "s1" (-1) 1 (Parsed 15000000000) 40 1;
    sample "s1" (-1) 1 (Parsed 20000000000) 50 1;
    sample "s1" (-1) 1 (Parsed 25000000000) 60 1 ].

(** The windows of the frames above, in test mode. *)
Definition demo_chunks : list Chunk := chunks_of demo_frame 2 true.
Definition boundary_chunks : list Chunk := chunks_of boundary_frame 3 true.
Definition flat_chunks : list Chunk := chunks_of flat_frame 3 true.

(** A stand-in for the network: state 1 where the angle is positive, state 0
    elsewhere, window by window and step by step. *)
Definition sign_labels : Extractor.Network :=
  fun batch =>
    Ok (map (map (fun x => if Qle_bool (fst x) 0 then 0%Z else 1%Z)) batch).

(** Cleaning passes that leave the predictions as they are. *)
Definition no_cleaning (d : Extractor.PredDict) : result Extractor.PredDict :=
  Ok d.

(** The cleaned sequence [[0,0,1,1,0]] at steps [[10,20,30,40,50]] of series
    ["s1"]. *)
Definition s1_cleaned : Extractor.PredDict :=
  [ ("s1", {| Extractor.preds := [0; 0; 1; 1; 0]%Z;
              Extractor.steps := [10#1; 20#1; 30#1; 40#1; 50#1] |}) ].

(** A cleaned sequence with no sample at all, and one with a single
    sample. *)
Definition no_samples : Extractor.SeriesDict :=
  {| Extractor.preds := []; Extractor.steps := [] |}.

Definition one_sample : Extractor.SeriesDict :=
  {| Extractor.preds := [1%Z]; Extractor.steps := [10#1] |}.

(** Series ["s2"] comes first, and its first timestamp is malformed. *)
Definition bad_first_frame : DataFrame :=
  [ sample "s2" 4 1 (Malformed "2018-13-45T99:00:00") 0 1;
    sample "s2" 5 1 (Parsed 900000000000) 1 1;
    sample "s1" (-3) 0 (Parsed 1000000000) 0 0;
    sample "s1" (-2) 0 (Parsed 6000000000) 1 0 ].

(** The table of the scan on [s1_cleaned]. *)
Definition s1_rows : list Extractor.PredictionRow :=
  match Extractor.transition_scan s1_cleaned with
  | Ok rows => rows
  | Raise _ => []
  end.

(** What the inference loop collects on the two windows of
    [boundary_frame] served in one batch of two. *)
Definition boundary_collected : list Z * list string * list Q :=
  ([0; 0; 0]%Z, ["s1"; "s1"; "s1"], [10#1; 20#1; 30#1]).

(** A validation batch of two windows of two steps, both labelled 0 then 1,
    and a model that answers it step by step: the labels of step 0 of both
    windows, then those of step 1. *)
Definition eval_batch : Evaluation.LabelledBatch :=
  {| Evaluation.data := [ [(-1#1, 0#1); (1#1, 0#1)];
                          [(-1#1, 0#1); (1#1, 0#1)] ];
     Evaluation.label := Some [ [0#1; 1#1]; [0#1; 1#1] ] |}.

Definition step_major_model
  : list (list (Q * Q)) -> Evaluation.outcome (list (list Z)) :=
  fun _ => Evaluation.Returns [ [0; 0]; [1; 1] ]%Z.

(** Scores that always return. *)
Definition unit_score : list Z -> list Z -> Evaluation.outcome unit :=
  fun _ _ => Evaluation.Returns tt.

(** Series ["s1"] has two samples and parses; series ["s2"] has four
    samples and a malformed timestamp. *)
Definition stale_frame : DataFrame :=
  [ sample "s1" (-3) 0 (Parsed 1000000000) 0 0;
    sample "s1" (-2) 0 (Parsed 6000000000) 1 0;
    sample "s2" 4 1 (Parsed 900000000000) 0 1;
    sample "s2" 5 1 (Malformed "2018-13-45T99:00:00") 1 1;
    sample "s2" 6 1 (Parsed 910000000000) 2 1;
    sample "s2" 7 1 (Parsed 915000000000) 3 1 ].

(** The chunks of [stale_frame] in a run whose breakpoint session is
    resumed, and the second window of ["s2"] among them. *)
Definition stale_chunks : list Chunk :=
  match snd (preprocess_data always_resume stale_frame 2 true) with
  | Ok chunks => chunks
  | Raise _ => []
  end.

Definition stale_window : Chunk :=
  {| series_id := "s2";
     step := [2#1; 3#1];
     timestamp := [];
     data := [(6#1, 1#1); (7#1, 1#1)];
     label := None |}.

(** The frame [demo_frame] with other labels. *)
Definition relabelled_frame : DataFrame :=
  [ sample "s1" (-3) 0 (Parsed 0) 0 1;
    sample "s1" (-2) 0 (Parsed 5000000000) 1 1;
    sample "s2" 4 1 (Parsed 0) 0 0;
    sample "s1" 5 1 (Parsed 10000000000) 2 0;
    sample "s2" 6 1 (Parsed 5000000000) 1 0;
    sample "s1" 7 1 (Parsed 15000000000) 3 0;
    sample "s1" (-1) 0 (Parsed 20000000000) 4 1;
    sample "s2" (-8) 0 (Parsed 10000000000) 2 1 ].

(** Validation scores of four epochs. *)
Definition demo_f1s : list Q := [1#2; 7#10; 7#10; 3#5].

End Examples.

(** * Properties *)

(** ** The error monad and the sequence primitives *)

Lemma for_each_app {A S : Type} (body : S -> A -> result S) (xs ys : list A)
    (s : S) :
  for_each body (xs ++ ys) s = (s' <- for_each body xs s ;; for_each body ys s').
Proof.
  revert s; induction xs as [|x xs IH]; intros s; simpl; [reflexivity|].
  destruct (body s x) as [s'|e]; simpl; [apply IH | reflexivity].
Qed.

Lemma py_slice_length {A : Type} (i w : nat) (xs : list A) :
  length (py_slice i (i + w) xs) = Nat.min w (length xs - i).
Proof.
  unfold py_slice.
  rewrite length_firstn, length_skipn.
  replace (i + w - i) with w by lia. reflexivity.
Qed.

Lemma py_slice_full {A : Type} (i w : nat) (xs : list A) :
  i + w <= length xs -> length (py_slice i (i + w) xs) = w.
Proof. intros H. rewrite py_slice_length. lia. Qed.

Lemma py_slice_window {A : Type} (i w : nat) (xs : list A) :
  py_slice i (i + w) xs = firstn w (skipn i xs).
Proof. unfold py_slice. replace (i + w - i) with w by lia. reflexivity. Qed.

Lemma py_range_positive (stop step : nat) :
  0 < step ->
  py_range 0 stop step
  = Ok (map (fun k => k * step) (seq 0 ((stop + (step - 1)) / step))).
Proof.
  intros H. unfold py_range.
  destruct (Nat.eqb_spec step 0) as [->|_]; [lia|].
  rewrite Nat.sub_0_r. reflexivity.
Qed.

(** Window [k] fits into [len] samples exactly when [k] is below the
    quotient. *)
Lemma window_fits_iff (len w k : nat) :
  0 < w -> (k * w + w <= len <-> k < len / w).
Proof.
  intros Hw. split; intros H.
  - apply Nat.div_le_lower_bound; lia.
  - assert (w * (len / w) <= len) by (apply Nat.Div0.mul_div_le). nia.
Qed.

Lemma ceil_div_ge (len w : nat) : 0 < w -> len / w <= (len + (w - 1)) / w.
Proof. intros Hw. apply Nat.Div0.div_le_mono. lia. Qed.

Lemma filter_below_seq_from (n a len : nat) :
  filter (fun k => k <? n) (seq a len) = seq a (Nat.min len (n - a)).
Proof.
  revert a; induction len as [|len IH]; intros a; simpl; [reflexivity|].
  destruct (Nat.ltb_spec a n) as [Hlt|Hge].
  - rewrite IH. replace (n - a) with (S (n - S a)) by lia. reflexivity.
  - rewrite IH. replace (n - a) with 0 by lia.
    replace (n - S a) with 0 by lia. now rewrite Nat.min_0_r.
Qed.

Lemma filter_below_seq (n m : nat) :
  n <= m -> filter (fun k => k <? n) (seq 0 m) = seq 0 n.
Proof.
  intros Hnm. rewrite filter_below_seq_from. f_equal. lia.
Qed.

(** [unique] keeps exactly the members of the list, each once. *)
Lemma unique_from_in (seen xs : list string) (x : string) :
  In x (unique_from seen xs) <-> In x xs /\ ~ In x seen.
Proof.
  revert seen; induction xs as [|y ys IH]; intros seen; simpl.
  - tauto.
  - destruct (existsb (String.eqb y) seen) eqn:E.
    + apply existsb_exists in E. destruct E as [z [Hz Hyz]].
      apply String.eqb_eq in Hyz. subst z.
      rewrite IH. split.
      * intros [H1 H2]. auto.
      * intros [[->|H1] H2]; [contradiction | auto].
    + assert (Hy : ~ In y seen).
      { intros Hin.
        assert (existsb (String.eqb y) seen = true) as E'.
        { apply existsb_exists. exists y. split; [exact Hin|].
          apply String.eqb_refl. }
        congruence. }
      simpl. rewrite IH. simpl. split.
      * intros [->|[H1 H2]]; [auto|]. split; [auto|]. intros H; apply H2; auto.
      * intros [[->|H1] H2]; [auto|].
        destruct (String.eqb_spec y x) as [->|Hne]; [auto|].
        right. split; [exact H1|]. intros [H|H]; [contradiction | auto].
Qed.

Lemma unique_from_NoDup (seen xs : list string) : NoDup (unique_from seen xs).
Proof.
  revert seen; induction xs as [|y ys IH]; intros seen; simpl.
  - constructor.
  - destruct (existsb (String.eqb y) seen); [apply IH|].
    constructor; [|apply IH].
    rewrite unique_from_in. simpl. tauto.
Qed.

Lemma unique_in (xs : list string) (x : string) : In x (unique xs) <-> In x xs.
Proof. unfold unique. rewrite unique_from_in. simpl. tauto. Qed.

Lemma unique_NoDup (xs : list string) : NoDup (unique xs).
Proof. apply unique_from_NoDup. Qed.

(** ** The Windower *)

Section WindowerProps.
Context {NS : NumpyScalars}.
Import Windower.

Lemma to_datetime_length (cells : list TimestampCell) (ns : list Z) :
  to_datetime cells = Some ns -> length ns = length cells.
Proof.
  revert ns; induction cells as [|c cells IH]; intros ns; simpl.
  - intros [= <-]. reflexivity.
  - destruct c as [t|raw]; [|discriminate].
    destruct (to_datetime cells) as [out|]; [|discriminate].
    intros [= <-]. simpl. f_equal. now apply IH.
Qed.

Lemma to_datetime_parsed (cells : list TimestampCell) :
  forallb is_parsed cells = true -> exists ns, to_datetime cells = Some ns.
Proof.
  induction cells as [|c cells IH]; simpl; intros H.
  - now exists [].
  - apply andb_true_iff in H. destruct H as [Hc Hrest].
    destruct c as [t|raw]; [|discriminate].
    destruct (IH Hrest) as [out ->]. now exists (t :: out).
Qed.

Lemma to_datetime_malformed (cells : list TimestampCell) :
  existsb (fun c => negb (is_parsed c)) cells = true ->
  to_datetime cells = None.
Proof.
  induction cells as [|c cells IH]; simpl; intros H; [discriminate|].
  destruct c as [t|raw]; simpl in H; [|reflexivity].
  now rewrite (IH H).
Qed.

Lemma timestamp_vector_length (sd : DataFrame) (ts : list scalar) :
  timestamp_vector sd = Some ts -> length ts = length sd.
Proof.
  unfold timestamp_vector.
  destruct (to_datetime (map col_timestamp sd)) as [ns|] eqn:E; simpl;
    [|discriminate].
  intros [= <-]. rewrite length_map, (to_datetime_length _ E).
  apply length_map.
Qed.

Lemma wellformed_series (df : DataFrame) (sid : string) :
  timestamps_wellformed df ->
  exists ts, timestamp_vector (select_series df sid) = Some ts.
Proof.
  unfold timestamps_wellformed, timestamp_vector, select_series. intros H.
  destruct (to_datetime_parsed
              (map col_timestamp
                   (filter (fun r => String.eqb (col_series_id r) sid) df)))
    as [ns ->].
  - rewrite forallb_forall in H. rewrite forallb_forall.
    intros c Hc. apply in_map_iff in Hc. destruct Hc as [r [<- Hr]].
    apply filter_In in Hr. apply H, Hr.
  - simpl. eauto.
Qed.

Lemma malformed_series (df : DataFrame) (sid : string) :
  series_malformed df sid -> timestamp_vector (select_series df sid) = None.
Proof.
  unfold series_malformed, timestamp_vector. intros H.
  rewrite to_datetime_malformed; [reflexivity|].
  rewrite existsb_exists in H. destruct H as [r [Hr Hbad]].
  apply existsb_exists. exists (col_timestamp r). split; [|exact Hbad].
  now apply in_map.
Qed.

(** The inner loop on a series whose timestamps parsed: it appends the
    windows that fit, in the order of the range. *)
Lemma chunk_loop_spec (W : nat) (is_test : bool) (df : DataFrame)
    (sid : string) (ts : list scalar) (ks : list nat) (acc : list Chunk) :
  0 < W ->
  timestamp_vector (select_series df sid) = Some ts ->
  for_each (chunk_body W is_test sid (select_series df sid)
                       (feature_matrix (select_series df sid)) (Some ts)
                       (step_vector (select_series df sid)))
           (map (fun k => k * W) ks) acc
  = Ok (acc ++ map (window_at W is_test df sid)
                   (filter (fun k => k <? length (select_series df sid) / W)
                           ks)).
Proof.
  intros HW Hts. revert acc.
  induction ks as [|k ks IH]; intros acc; simpl.
  - now rewrite app_nil_r.
  - unfold chunk_body at 1. simpl.
    rewrite py_slice_length.
    unfold feature_matrix at 1. rewrite length_map.
    destruct (Nat.ltb_spec k (length (select_series df sid) / W)) as [Hk|Hk].
    + apply (window_fits_iff (length (select_series df sid)) k HW) in Hk.
      replace (Nat.min W (length (select_series df sid) - k * W) =? W)
        with true by (symmetry; apply Nat.eqb_eq; lia).
      destruct is_test; simpl; rewrite IH; simpl;
        rewrite <- app_assoc; simpl; f_equal; f_equal;
        unfold window_at; rewrite Hts; reflexivity.
    + assert (~ k * W + W <= length (select_series df sid)) as Hno.
      { intros Hfit. apply (window_fits_iff _ k HW) in Hfit. lia. }
      replace (Nat.min W (length (select_series df sid) - k * W) =? W)
        with false by (symmetry; apply Nat.eqb_neq; lia).
      apply IH.
Qed.

(** The outer loop runs through a prefix of series whose timestamps parse
    without entering the breakpoint, and adds their windows. *)
Lemma series_loop_parsed_prefix (hook : string -> hook_outcome) (W : nat)
    (is_test : bool) (df : DataFrame) (pre rest : list string)
    (ts0 : option (list scalar)) (acc : list Chunk) (bps : list string) :
  0 < W ->
  (forall p, In p pre ->
     exists ts, timestamp_vector (select_series df p) = Some ts) ->
  exists ts1,
    series_loop hook W is_test df (pre ++ rest) ts0 acc bps
    = series_loop hook W is_test df rest ts1
        (acc ++ flat_map (series_windows W is_test df) pre) bps.
Proof.
  intros HW. revert ts0 acc.
  induction pre as [|sid pre IH]; intros ts0 acc Hpre; simpl.
  - exists ts0. now rewrite app_nil_r.
  - destruct (Hpre sid (or_introl eq_refl)) as [ts Hts]. rewrite Hts.
    rewrite (py_range_positive _ HW). cbn [bind].
    rewrite (chunk_loop_spec is_test df sid _ acc HW Hts).
    rewrite filter_below_seq.
    + destruct (IH (Some ts)
                   (acc ++ map (window_at W is_test df sid)
                      (seq 0 (length (select_series df sid) / W))))
        as [ts1 Hrun].
      * intros p Hp. apply Hpre. now right.
      * exists ts1. rewrite Hrun. rewrite <- app_assoc. reflexivity.
    + unfold feature_matrix. rewrite length_map. now apply ceil_div_ge.
Qed.

Lemma series_loop_wellformed (hook : string -> hook_outcome) (W : nat)
    (is_test : bool) (df : DataFrame) (ids : list string)
    (ts0 : option (list scalar)) (acc : list Chunk) (bps : list string) :
  0 < W ->
  timestamps_wellformed df ->
  series_loop hook W is_test df ids ts0 acc bps
  = (bps, Ok (acc ++ flat_map (series_windows W is_test df) ids)).
Proof.
  intros HW Hwf.
  destruct (@series_loop_parsed_prefix hook W is_test df ids [] ts0 acc bps HW)
    as [ts1 Hrun].
  - intros p _. now apply wellformed_series.
  - rewrite app_nil_r in Hrun. rewrite Hrun. reflexivity.
Qed.

(** The breakpoint calls recorded so far are never dropped. *)
Lemma series_loop_trace_prefix (hook : string -> hook_outcome) (W : nat)
    (is_test : bool) (df : DataFrame) (ids : list string)
    (ts0 : option (list scalar)) (acc : list Chunk) (bps : list string) :
  exists more,
    fst (series_loop hook W is_test df ids ts0 acc bps) = bps ++ more.
Proof.
  revert ts0 acc bps.
  induction ids as [|sid ids IH]; intros ts0 acc bps; simpl.
  - exists []. now rewrite app_nil_r.
  - destruct (timestamp_vector (select_series df sid)) as [ts|].
    + destruct (bind _ _) as [acc'|e]; [apply IH|].
      exists []. simpl. now rewrite app_nil_r.
    + destruct (hook sid).
      * destruct (bind _ _) as [acc'|e].
        -- destruct (IH ts0 acc' (bps ++ [sid])) as [more Hmore].
           exists (sid :: more). rewrite Hmore, <- app_assoc. reflexivity.
        -- exists [sid]. reflexivity.
      * exists [sid]. reflexivity.
Qed.

(** On a frame whose timestamps all parse the Windower returns, never enters
    the breakpoint, and its chunks are the windows of every series, series by
    series in order of first appearance. *)
Lemma preprocess_data_wellformed (hook : string -> hook_outcome)
    (df : DataFrame) (W : nat) (is_test : bool) :
  0 < W ->
  timestamps_wellformed df ->
  preprocess_data hook df W is_test
  = ([], Ok (flat_map (series_windows W is_test df)
                      (unique (map col_series_id df)))).
Proof.
  intros HW Hwf. unfold preprocess_data.
  now rewrite series_loop_wellformed.
Qed.

Lemma windows_of_same (W : nat) (is_test : bool) (df : DataFrame)
    (sid : string) :
  windows_of sid (series_windows W is_test df sid)
  = series_windows W is_test df sid.
Proof.
  unfold windows_of, series_windows.
  apply forallb_filter_id. apply forallb_forall.
  intros c Hc. apply in_map_iff in Hc. destruct Hc as [k [<- _]].
  simpl. apply String.eqb_refl.
Qed.

Lemma windows_of_other (W : nat) (is_test : bool) (df : DataFrame)
    (sid other : string) :
  other <> sid ->
  windows_of sid (series_windows W is_test df other) = [].
Proof.
  intros Hne. unfold windows_of, series_windows.
  induction (seq 0 (length (select_series df other) / W)) as [|k ks IH];
    simpl; [reflexivity|].
  destruct (String.eqb_spec other sid) as [Heq|_]; [contradiction | exact IH].
Qed.

Lemma windows_of_flat_map_absent (W : nat) (is_test : bool) (df : DataFrame)
    (sid : string) (ids : list string) :
  ~ In sid ids ->
  windows_of sid (flat_map (series_windows W is_test df) ids) = [].
Proof.
  induction ids as [|x ids IH]; simpl; intros Hno; [reflexivity|].
  unfold windows_of in *. rewrite filter_app, IH by tauto.
  fold (windows_of sid (series_windows W is_test df x)).
  rewrite windows_of_other; [reflexivity|]. intros ->. apply Hno. now left.
Qed.

Lemma windows_of_flat_map_present (W : nat) (is_test : bool) (df : DataFrame)
    (sid : string) (ids : list string) :
  NoDup ids -> In sid ids ->
  windows_of sid (flat_map (series_windows W is_test df) ids)
  = series_windows W is_test df sid.
Proof.
  intros Hnd. induction Hnd as [|x ids Hx Hnd IH]; simpl; [tauto|].
  intros Hin.
  assert (Happ : forall xs ys,
            windows_of sid (xs ++ ys) = windows_of sid xs ++ windows_of sid ys)
    by (intros; apply filter_app).
  rewrite Happ.
  destruct (String.string_dec x sid) as [->|Hne].
  - rewrite windows_of_same, windows_of_flat_map_absent by exact Hx.
    apply app_nil_r.
  - rewrite (windows_of_other W is_test df Hne). simpl.
    apply IH. destruct Hin as [Heq|Hin]; [contradiction | exact Hin].
Qed.

Lemma select_series_absent (df : DataFrame) (sid : string) :
  ~ In sid (map col_series_id df) -> select_series df sid = [].
Proof.
  intros Hno. unfold select_series.
  induction df as [|r df IH]; simpl in *; [reflexivity|].
  destruct (String.eqb_spec (col_series_id r) sid) as [Heq|_].
  - exfalso. apply Hno. now left.
  - apply IH. intros Hin. apply Hno. now right.
Qed.

(** The chunks of one series in the output of the Windower. *)
Lemma windows_of_preprocess (W : nat) (is_test : bool) (df : DataFrame)
    (sid : string) :
  windows_of sid (flat_map (series_windows W is_test df)
                           (unique (map col_series_id df)))
  = series_windows W is_test df sid.
Proof.
  destruct (in_dec String.string_dec sid (unique (map col_series_id df)))
    as [Hin|Hno].
  - apply windows_of_flat_map_present; [apply unique_NoDup | exact Hin].
  - rewrite windows_of_flat_map_absent by exact Hno.
    rewrite unique_in in Hno.
    unfold series_windows. rewrite select_series_absent by exact Hno. simpl.
    rewrite Nat.Div0.div_0_l. reflexivity.
Qed.

Lemma firstn_plus {A : Type} (a b : nat) (xs : list A) :
  firstn (a + b) xs = firstn a xs ++ firstn b (skipn a xs).
Proof.
  revert xs; induction a as [|a IH]; intros xs; simpl; [reflexivity|].
  destruct xs as [|x xs]; simpl.
  - now rewrite firstn_nil.
  - now rewrite IH.
Qed.

(** Consecutive windows of width [w], glued together, are a prefix. *)
Lemma concat_windows {A : Type} (w n : nat) (xs : list A) :
  concat (map (fun k => py_slice (k * w) (k * w + w) xs) (seq 0 n))
  = firstn (n * w) xs.
Proof.
  induction n as [|n IH]; [reflexivity|].
  rewrite seq_S, map_app, concat_app, IH. simpl.
  rewrite app_nil_r, py_slice_window.
  replace (w + n * w) with (n * w + w) by lia.
  now rewrite firstn_plus.
Qed.

Lemma nth_error_series_windows (W : nat) (is_test : bool) (df : DataFrame)
    (sid : string) (k : nat) (c : Chunk) :
  nth_error (series_windows W is_test df sid) k = Some c ->
  k < length (select_series df sid) / W /\ c = window_at W is_test df sid k.
Proof.
  unfold series_windows. rewrite nth_error_map, nth_error_seq.
  destruct (Nat.ltb_spec k (length (select_series df sid) / W)) as [Hk|Hk];
    simpl; [|discriminate].
  intros [= <-]. auto.
Qed.

(** C2. For a series of [L] samples and a positive window length [W] the
    Windower yields exactly [L / W] windows for that series; window [k] holds
    the [W] consecutive samples that start at sample [k * W]; glued together
    in order the windows are the first [(L / W) * W] samples of the series,
    each exactly once, and the shorter remainder is left out.  The frame is
    one whose timestamps parse. *)
Theorem windower_coverage (hook : string -> hook_outcome) (df : DataFrame)
    (W : nat) (is_test : bool) (sid : string) :
  0 < W ->
  timestamps_wellformed df ->
  exists chunks,
    preprocess_data hook df W is_test = ([], Ok chunks) /\
    length (windows_of sid chunks) = length (select_series df sid) / W /\
    (forall k c,
        nth_error (windows_of sid chunks) k = Some c ->
        length (data c) = W /\
        data c
        = firstn W (skipn (k * W) (feature_matrix (select_series df sid))) /\
        step c
        = firstn W (skipn (k * W) (step_vector (select_series df sid)))) /\
    concat (map data (windows_of sid chunks))
    = firstn (length (select_series df sid) / W * W)
             (feature_matrix (select_series df sid)) /\
    concat (map step (windows_of sid chunks))
    = firstn (length (select_series df sid) / W * W)
             (step_vector (select_series df sid)).
Proof.
  intros HW Hwf.
  exists (flat_map (series_windows W is_test df)
                   (unique (map col_series_id df))).
  split; [now apply preprocess_data_wellformed|].
  rewrite windows_of_preprocess.
  split; [|split; [|split]].
  - unfold series_windows. now rewrite length_map, length_seq.
  - intros k c Hk. apply nth_error_series_windows in Hk.
    destruct Hk as [Hk ->]. simpl.
    rewrite !py_slice_window. split; [|split]; try reflexivity.
    rewrite <- py_slice_window. apply py_slice_full.
    unfold feature_matrix. rewrite length_map.
    now apply window_fits_iff.
  - unfold series_windows. rewrite map_map. simpl. apply concat_windows.
  - unfold series_windows. rewrite map_map. simpl. apply concat_windows.
Qed.

(** A window that fits into its series is cut out of the columns of that
    series, and each of its vectors has [W] entries. *)
Lemma window_at_aligned (W : nat) (is_test : bool) (df : DataFrame)
    (sid : string) (k : nat) (ts : list scalar) :
  0 < W ->
  k < length (select_series df sid) / W ->
  timestamp_vector (select_series df sid) = Some ts ->
  let c := window_at W is_test df sid k in
  aligned_at W is_test df c (k * W) /\
  length (data c) = W /\
  length (step c) = W /\
  length (timestamp c) = W /\
  (is_test = false -> exists l, label c = Some l /\ length l = W).
Proof.
  intros HW Hk Hts.
  apply (window_fits_iff _ k HW) in Hk.
  pose proof (timestamp_vector_length _ Hts) as Hlen.
  unfold aligned_at. simpl. rewrite Hts.
  repeat split.
  - exact Hk.
  - exists ts. auto.
  - apply py_slice_full. unfold feature_matrix. now rewrite length_map.
  - apply py_slice_full. unfold step_vector. now rewrite length_map.
  - apply py_slice_full. now rewrite Hlen.
  - intros ->. eexists. split; [reflexivity|].
    rewrite length_map. apply py_slice_full.
    unfold label_values. now rewrite length_map.
Qed.

Lemma in_windower_output (W : nat) (is_test : bool) (df : DataFrame)
    (c : Chunk) :
  In c (flat_map (series_windows W is_test df)
                 (unique (map col_series_id df))) ->
  exists sid k,
    k < length (select_series df sid) / W /\
    c = window_at W is_test df sid k.
Proof.
  intros Hc. apply in_flat_map in Hc. destruct Hc as [sid [_ Hc]].
  apply In_nth_error in Hc. destruct Hc as [k Hk].
  apply nth_error_series_windows in Hk. exists sid, k. exact Hk.
Qed.

(** The chunks of the Windower are fit for batching: step vector and feature
    matrix of every chunk have [W] entries. *)
Lemma windower_chunks_length (hook : string -> hook_outcome)
    (df : DataFrame) (W : nat) (is_test : bool) (bps : list string)
    (chunks : list Chunk) :
  0 < W ->
  timestamps_wellformed df ->
  preprocess_data hook df W is_test = (bps, Ok chunks) ->
  Forall (fun c => length (step c) = W /\ length (data c) = W) chunks.
Proof.
  intros HW Hwf Hrun.
  rewrite preprocess_data_wellformed in Hrun by assumption.
  injection Hrun as _ <-.
  apply Forall_forall. intros c Hc.
  apply in_windower_output in Hc. destruct Hc as [sid [k [Hk ->]]].
  destruct (wellformed_series sid Hwf) as [ts Hts].
  destruct (window_at_aligned is_test df sid HW Hk Hts) as [_ [Hd [Hs _]]].
  auto.
Qed.

(** On a frame whose timestamps all parse, every chunk is field-aligned: for
    some window number [k], its feature matrix, step vector, timestamp vector
    and (outside test mode) label vector are the index range
    [[k * W, k * W + W)] of the columns of the chunk's own series, the range
    lies within the series, and every one of these vectors has exactly [W]
    entries. *)
Theorem window_field_alignment (hook : string -> hook_outcome)
    (df : DataFrame) (W : nat) (is_test : bool) (bps : list string)
    (chunks : list Chunk) (c : Chunk) :
  0 < W ->
  timestamps_wellformed df ->
  preprocess_data hook df W is_test = (bps, Ok chunks) ->
  In c chunks ->
  exists k,
    aligned_at W is_test df c (k * W) /\
    length (data c) = W /\
    length (step c) = W /\
    length (timestamp c) = W /\
    (is_test = false -> exists l, label c = Some l /\ length l = W).
Proof.
  intros HW Hwf Hrun Hc.
  rewrite preprocess_data_wellformed in Hrun by assumption.
  injection Hrun as _ <-.
  apply in_windower_output in Hc. destruct Hc as [sid [k [Hk ->]]].
  destruct (wellformed_series sid Hwf) as [ts Hts].
  exists k. exact (window_at_aligned is_test df sid HW Hk Hts).
Qed.

(** C3, as amended.  At the first series with a malformed timestamp the parse
    error is caught and [breakpoint()] is entered for that series; when that
    debugger session is quit, windowing ends there with [BdbQuit]. *)
Theorem malformed_timestamp_enters_breakpoint
    (hook : string -> hook_outcome) (df : DataFrame) (W : nat)
    (is_test : bool) (pre : list string) (sid : string) (post : list string) :
  0 < W ->
  unique (map col_series_id df) = pre ++ sid :: post ->
  (forall p, In p pre -> ~ series_malformed df p) ->
  series_malformed df sid ->
  hd_error (fst (preprocess_data hook df W is_test)) = Some sid /\
  (hook sid = Quit ->
   preprocess_data hook df W is_test = ([sid], Raise BdbQuit)).
Proof.
  intros HW Hids Hpre Hbad. unfold preprocess_data. rewrite Hids.
  destruct (@series_loop_parsed_prefix hook W is_test df pre (sid :: post)
              None [] [] HW) as [ts1 Hrun].
  - intros p Hp. specialize (Hpre p Hp).
    unfold series_malformed in Hpre.
    apply not_true_is_false in Hpre.
    unfold timestamp_vector.
    destruct (to_datetime_parsed (map col_timestamp (select_series df p)))
      as [ns ->]; [|simpl; eauto].
    rewrite forallb_forall. intros cell Hcell.
    apply in_map_iff in Hcell. destruct Hcell as [r [<- Hr]].
    destruct (is_parsed (col_timestamp r)) eqn:E; [reflexivity|].
    assert (existsb (fun r => negb (is_parsed (col_timestamp r)))
                    (select_series df p) = true) as Hex.
    { apply existsb_exists. exists r. split; [exact Hr|]. now rewrite E. }
    congruence.
  - rewrite Hrun. simpl. rewrite (malformed_series Hbad).
    destruct (hook sid) eqn:Hhook.
    + split; [|discriminate].
      destruct (bind _ _) as [acc'|e]; [|reflexivity].
      destruct (series_loop_trace_prefix hook W is_test df post ts1 acc' [sid])
        as [more ->]. reflexivity.
    + split; [reflexivity|]. intros _. reflexivity.
Qed.

End WindowerProps.

Section WindowerRuns.
Import Windower Examples.

(** C2 on the frame of two series: ["s1"] has five samples, so windows of
    two samples give two windows. *)
Lemma windower_coverage_witness :
  0 < 2 /\
  timestamps_wellformed demo_frame /\
  exists chunks,
    preprocess_data always_quit demo_frame 2 false = ([], Ok chunks) /\
    length (windows_of "s1" chunks) = 2 /\
    concat (map data (windows_of "s1" chunks))
    = firstn 4 (feature_matrix (select_series demo_frame "s1")).
Proof.
  split; [lia|]. split; [reflexivity|].
  destruct (@windower_coverage exact_scalars always_quit demo_frame 2 false
              "s1") as [chunks [Hrun [Hlen [_ [Hdata _]]]]];
    [lia | reflexivity |].
  exists chunks. split; [exact Hrun|]. split; [exact Hlen | exact Hdata].
Defined.

(** Field alignment of the second window of ["s1"] in the same frame. *)
Lemma window_field_alignment_witness :
  exists k,
    aligned_at 2 false demo_frame
               (window_at 2 false demo_frame "s1" 1) (k * 2) /\
    length (data (window_at 2 false demo_frame "s1" 1)) = 2 /\
    length (step (window_at 2 false demo_frame "s1" 1)) = 2 /\
    length (timestamp (window_at 2 false demo_frame "s1" 1)) = 2 /\
    (false = false ->
     exists l, label (window_at 2 false demo_frame "s1" 1) = Some l /\
               length l = 2).
Proof.
  apply (@window_field_alignment exact_scalars always_quit demo_frame 2 false
           [] (chunks_of demo_frame 2 false)).
  - lia.
  - reflexivity.
  - reflexivity.
  - right. left. reflexivity.
Defined.

(** The claim C3 fails.  Series ["s2"] has a malformed timestamp, the session
    entered by [breakpoint()] lets the program continue, and the Windower
    returns normally: the window of ["s2"] is built, and its timestamps are
    those of series ["s1"]. *)
Lemma malformed_timestamp_resumed_silently :
  series_malformed bad_frame "s2" /\
  preprocess_data always_resume bad_frame 2 true
  = (["s2"],
     Ok [ {| series_id := "s1";
             step := [0#1; 1#1];
             timestamp := map view_float_seconds [1000000000; 6000000000]%Z;
             data := [(-3#1, 0#1); (-2#1, 0#1)];
             label := None |};
          {| series_id := "s2";
             step := [0#1; 1#1];
             timestamp := map view_float_seconds [1000000000; 6000000000]%Z;
             data := [(4#1, 1#1); (5#1, 1#1)];
             label := None |} ]).
Proof. split; reflexivity. Qed.

(** C3 as amended, on the same frame with a session that is quit. *)
Lemma malformed_timestamp_enters_breakpoint_witness :
  hd_error (fst (preprocess_data always_quit bad_frame 2 true)) = Some "s2" /\
  (always_quit "s2" = Quit ->
   preprocess_data always_quit bad_frame 2 true = (["s2"], Raise BdbQuit)).
Proof.
  apply (@malformed_timestamp_enters_breakpoint exact_scalars always_quit
           bad_frame 2 true ["s1"] "s2" []).
  - lia.
  - reflexivity.
  - intros p [<-|[]]. unfold series_malformed. simpl. discriminate.
  - reflexivity.
Defined.

End WindowerRuns.

(** ** The transition scan *)

Section ScanProps.
Context {NS : NumpyScalars}.
Import Extractor.

Lemma scan_pairs_series_id (curr_series : option string) (curr_state : Z)
    (pairs : list (Z * scalar)) (rows : list PredictionRow) :
  Forall (fun r => series_id r = curr_series) rows ->
  Forall (fun r => series_id r = curr_series)
         (scan_pairs curr_series curr_state pairs rows).
Proof.
  revert curr_state rows.
  induction pairs as [|[pred st] pairs IH]; intros curr_state rows Hrows;
    simpl; [exact Hrows|].
  destruct (negb (pred =? curr_state)%Z); apply IH; [|exact Hrows].
  apply Forall_app. split; [exact Hrows|].
  constructor; [reflexivity | constructor].
Qed.

Lemma scan_items_series_id (curr_series : option string) (items : PredDict)
    (rows out : list PredictionRow) :
  Forall (fun r => series_id r = curr_series) rows ->
  scan_items curr_series items rows = Ok out ->
  Forall (fun r => series_id r = curr_series) out.
Proof.
  revert rows.
  induction items as [|[sid sd] items IH]; intros rows Hrows; simpl.
  - intros [= <-]. exact Hrows.
  - destruct (index0 (preds sd)) as [p0|e]; simpl; [|discriminate].
    apply IH. now apply scan_pairs_series_id.
Qed.

(** Whatever the cleaned sequences are, no emitted row carries a series
    identifier. *)
Lemma transition_scan_series_id_None (pred_dict : PredDict)
    (rows : list PredictionRow) :
  transition_scan pred_dict = Ok rows ->
  Forall (fun r => series_id r = None) rows.
Proof.
  unfold transition_scan. apply scan_items_series_id. constructor.
Qed.

Lemma scan_items_app (curr_series : option string) (xs ys : PredDict)
    (rows : list PredictionRow) :
  scan_items curr_series (xs ++ ys) rows
  = (rows' <- scan_items curr_series xs rows ;;
     scan_items curr_series ys rows').
Proof.
  revert rows. induction xs as [|[sid sd] xs IH]; intros rows; simpl;
    [reflexivity|].
  destruct (index0 (preds sd)) as [p0|e]; simpl; [apply IH | reflexivity].
Qed.

Lemma number_rows_app (n : nat) (sid : option string)
    (xs ys : list (Z * string)) :
  number_rows n sid (xs ++ ys)
  = number_rows n sid xs ++ number_rows (n + length xs) sid ys.
Proof.
  revert n. induction xs as [|[st ev] xs IH]; intros n; simpl.
  - now rewrite Nat.add_0_r.
  - rewrite IH. now rewrite Nat.add_succ_r.
Qed.

Lemma length_number_rows (n : nat) (sid : option string)
    (xs : list (Z * string)) :
  length (number_rows n sid xs) = length xs.
Proof.
  revert n. induction xs as [|[st ev] xs IH]; intros n; simpl;
    [reflexivity | now rewrite IH].
Qed.

Lemma adjacent_events_cons (prev p : Z) (ps : list Z) (s0 s1 : scalar)
    (ss : list scalar) :
  adjacent_events (prev :: p :: ps) (s0 :: s1 :: ss)
  = (if negb (Z.eqb p prev)
     then [(py_int s1, if Z.eqb p 1 then "wakeup" else "onset")]
     else [])
    ++ adjacent_events (p :: ps) (s1 :: ss).
Proof.
  unfold adjacent_events. simpl.
  destruct (negb (Z.eqb p prev)); reflexivity.
Qed.

Lemma adjacent_events_no_steps (preds : list Z) :
  adjacent_events preds [] = [].
Proof.
  unfold adjacent_events. simpl. now rewrite combine_nil, combine_nil.
Qed.

(** The scan of one series emits the adjacent-pair events of that series:
    [curr_state] always is the state of the previous sample. *)
Lemma scan_pairs_adjacent (curr_series : option string) (prev : Z)
    (ps : list Z) (s0 : scalar) (ss : list scalar)
    (rows : list PredictionRow) :
  scan_pairs curr_series prev (combine ps ss) rows
  = rows ++ number_rows (length rows) curr_series
              (adjacent_events (prev :: ps) (s0 :: ss)).
Proof.
  revert prev s0 ss rows.
  induction ps as [|p ps IH]; intros prev s0 ss rows.
  - simpl. now rewrite app_nil_r.
  - destruct ss as [|s1 ss].
    + simpl. now rewrite app_nil_r.
    + rewrite adjacent_events_cons. cbn [combine scan_pairs].
      destruct (Z.eqb_spec p prev) as [->|Hne]; cbn [negb].
      * apply IH.
      * rewrite (IH p s1 ss). rewrite length_app. cbn [length app number_rows].
        rewrite <- app_assoc. cbn [app].
        now rewrite Nat.add_1_r.
Qed.

(** The scan of a whole dict whose series all have a first sample: the
    adjacent-pair events of the series, one series after the other, numbered
    across the series, under the one value of [curr_series]. *)
Lemma scan_items_adjacent (curr_series : option string) (items : PredDict)
    (rows : list PredictionRow) :
  Forall (fun kv => preds (snd kv) <> []) items ->
  scan_items curr_series items rows
  = Ok (rows ++ number_rows (length rows) curr_series
                  (concat (map (fun kv => adjacent_events (preds (snd kv))
                                                          (steps (snd kv)))
                               items))).
Proof.
  intros Hne. revert rows.
  induction Hne as [|[sid sd] items Hsd _ IH]; intros rows.
  - simpl. now rewrite app_nil_r.
  - cbn [scan_items map concat snd].
    destruct (preds sd) as [|p0 ps] eqn:Hp; [now elim Hsd|].
    cbn [index0 bind tl]. rewrite IH.
    rewrite number_rows_app.
    destruct (steps sd) as [|s0 ss] eqn:Hs.
    + rewrite adjacent_events_no_steps. cbn [tl].
      rewrite combine_nil. cbn [scan_pairs number_rows length app].
      now rewrite Nat.add_0_r.
    + cbn [tl]. rewrite (scan_pairs_adjacent curr_series p0 ps s0 ss rows).
      rewrite length_app, length_number_rows, <- app_assoc. reflexivity.
Qed.

(** C4, as amended.  A series whose cleaned label sequence has exactly one
    sample yields zero events and no error: alone it gives the empty table,
    and among other series the table is the one obtained without it. *)
Theorem single_sample_series_emits_nothing (before after : PredDict)
    (sid : string) (sd : SeriesDict) :
  length (preds sd) = 1 ->
  transition_scan [(sid, sd)] = Ok [] /\
  transition_scan (before ++ (sid, sd) :: after)
  = transition_scan (before ++ after).
Proof.
  intros Hlen.
  destruct (preds sd) as [|p0 [|p1 ps]] eqn:Hp; try discriminate.
  split.
  - unfold transition_scan. simpl. rewrite Hp. reflexivity.
  - unfold transition_scan. rewrite !scan_items_app.
    destruct (scan_items None before []) as [rows|e]; simpl; [|reflexivity].
    rewrite Hp. reflexivity.
Qed.

End ScanProps.

Section ScanRuns.
Import Extractor Examples.

(** C1, the run of the code on the sequence of the claim.  The two events
    are at steps 30 and 50, typed [wakeup] and [onset], with score 1; their
    [series_id] is [None] and not ["s1"].  So it is for every input: when
    every series has a first sample, the table holds the adjacent-pair events
    of the series with dense row identifiers, and [None] as the series
    identifier of every row. *)
Theorem transition_scan_drops_series_id :
  transition_scan s1_cleaned
  = Ok [ {| row_id := 0; series_id := None; step := 30;
            event := "wakeup"; score := 1 |};
         {| row_id := 1; series_id := None; step := 50;
            event := "onset"; score := 1 |} ] /\
  forall (NS : NumpyScalars) (pred_dict : PredDict),
    Forall (fun kv => preds (snd kv) <> []) pred_dict ->
    transition_scan pred_dict
    = Ok (number_rows 0 None
            (concat (map (fun kv => adjacent_events (preds (snd kv))
                                                    (steps (snd kv)))
                         pred_dict))).
Proof.
  split; [reflexivity|].
  intros NS pred_dict Hne. unfold transition_scan.
  now rewrite scan_items_adjacent.
Qed.

(** The claim C4 fails on a series with zero samples: reading the initial
    state raises [IndexError]. *)
Lemma empty_series_raises_IndexError :
  length (preds no_samples) < 2 /\
  transition_scan [("s1", no_samples)] = Raise IndexError.
Proof. split; [simpl; lia | reflexivity]. Qed.

(** C4 as amended, on a series with a single sample of state 1, alone and
    in front of the series of C1. *)
Lemma single_sample_series_emits_nothing_witness :
  transition_scan [("s0", one_sample)] = Ok [] /\
  transition_scan ([] ++ ("s0", one_sample) :: s1_cleaned)
  = transition_scan ([] ++ s1_cleaned).
Proof.
  apply (@single_sample_series_emits_nothing exact_scalars [] s1_cleaned "s0"
           one_sample).
  reflexivity.
Defined.

End ScanRuns.

(** ** The inference loop and the reassembly *)

Section PipelineProps.
Context {NS : NumpyScalars}.
Import Extractor.

Lemma index0_hd_error {A : Type} (xs ys : list A) :
  hd_error xs = hd_error ys -> index0 xs = index0 ys.
Proof.
  destruct xs, ys; simpl; intros H; try reflexivity; try discriminate.
  now injection H as ->.
Qed.

(** One turn of the loop, read through [first_row]. *)
Lemma inference_loop_step (predicted_labels : Network) (batch : Loader.Batch)
    (rest : list Loader.Batch)
    (predictions : list Z) (series_ids : list string) (steps : list scalar) :
  inference_loop predicted_labels (batch :: rest) predictions series_ids steps
  = (row0 <- first_row predicted_labels (Loader.data batch) ;;
     sid0 <- index0 (Loader.series_id batch) ;;
     step0 <- index0 (Loader.step batch) ;;
     inference_loop predicted_labels rest
       (predictions ++ row0)
       (series_ids ++ repeat sid0 (length row0))
       (steps ++ step0)).
Proof.
  cbn [inference_loop]. unfold first_row.
  destruct (predicted_labels (Loader.data batch)); reflexivity.
Qed.

(** The accumulators of the loop only ever receive the element at index 0 of
    each batch. *)
Lemma inference_loop_first_only
    (predicted_labels : Network)
    (loader1 loader2 : list Loader.Batch)
    (predictions : list Z) (series_ids : list string) (steps : list scalar) :
  first_row_local predicted_labels ->
  Forall2 agree_on_first loader1 loader2 ->
  inference_loop predicted_labels loader1 predictions series_ids steps
  = inference_loop predicted_labels loader2 predictions series_ids steps.
Proof.
  intros Hlocal Hagree. revert predictions series_ids steps.
  induction Hagree as [|b1 b2 l1 l2 [Hdata [Hsid Hstep]] _ IH];
    intros predictions series_ids steps; [reflexivity|].
  rewrite !inference_loop_step.
  rewrite (Hlocal _ _ Hdata).
  rewrite (index0_hd_error _ _ Hsid), (index0_hd_error _ _ Hstep).
  destruct (first_row predicted_labels (Loader.data b2)) as [row0|e];
    cbn [bind]; [|reflexivity].
  destruct (index0 (Loader.series_id b2)) as [sid0|e]; cbn [bind];
    [|reflexivity].
  destruct (index0 (Loader.step b2)) as [step0|e]; cbn [bind];
    [apply IH | reflexivity].
Qed.

(** Whenever the loop returns, each accumulator has grown by what the
    element at index 0 of every batch contributes, batch after batch. *)
Lemma inference_loop_collects (predicted_labels : Network)
    (loader : list Loader.Batch)
    (predictions : list Z) (series_ids : list string) (steps : list scalar)
    (predictions' : list Z) (series_ids' : list string)
    (steps' : list scalar) :
  inference_loop predicted_labels loader predictions series_ids steps
  = Ok (predictions', series_ids', steps') ->
  predictions'
  = predictions ++ concat (map (batch_labels predicted_labels) loader) /\
  series_ids'
  = series_ids ++ concat (map (batch_series_ids predicted_labels) loader) /\
  steps' = steps ++ concat (map batch_steps loader).
Proof.
  revert predictions series_ids steps.
  induction loader as [|b loader IH]; intros predictions series_ids steps.
  - simpl. intros [= <- <- <-]. now rewrite !app_nil_r.
  - rewrite inference_loop_step.
    unfold batch_series_ids, batch_labels, batch_steps.
    cbn [map concat].
    destruct (first_row predicted_labels (Loader.data b)) as [row0|e];
      cbn [bind]; [|discriminate].
    destruct (Loader.series_id b) as [|sid0 sids]; cbn [index0 bind hd];
      [discriminate|].
    destruct (Loader.step b) as [|step0 more]; cbn [index0 bind hd];
      [discriminate|].
    intros Hrun. apply IH in Hrun. destruct Hrun as [-> [-> ->]].
    now rewrite <- !app_assoc.
Qed.

(** C9. [predict_events] reads only the element at index 0 of every batch.
    Whenever the inference loop returns, its predictions, series identifiers
    and steps are those of the first window of each batch and of no other
    window; and two loaders whose batches agree, one by one, on that element
    (feature matrix, series identifier, step vector) give the same event
    table, or the same exception, whatever their other elements are.  The
    network is one that labels each window of a batch on its own. *)
Theorem predict_events_reads_first_window_only
    (predicted_labels : Network)
    (remove_outliers get_local_best : PredDict -> result PredDict)
    (loader1 loader2 : list Loader.Batch) :
  first_row_local predicted_labels ->
  Forall2 agree_on_first loader1 loader2 ->
  predict_events predicted_labels remove_outliers get_local_best loader1
  = predict_events predicted_labels remove_outliers get_local_best loader2 /\
  forall predictions series_ids steps,
    inference_loop predicted_labels loader1 [] [] []
    = Ok (predictions, series_ids, steps) ->
    predictions = concat (map (batch_labels predicted_labels) loader1) /\
    series_ids = concat (map (batch_series_ids predicted_labels) loader1) /\
    steps = concat (map batch_steps loader1).
Proof.
  intros Hlocal Hagree. split.
  - unfold predict_events.
    now rewrite (inference_loop_first_only [] [] [] Hlocal Hagree).
  - intros predictions series_ids steps Hrun.
    now apply inference_loop_collects in Hrun.
Qed.

(** With a batch size of one every window is a batch of its own. *)
Lemma singleton_slices {A : Type} (xs : list A) :
  map (fun i => py_slice i (i + 1) xs) (seq 0 (length xs))
  = map (fun x => [x]) xs.
Proof.
  induction xs as [|x xs IH]; [reflexivity|].
  cbn [length seq map]. f_equal.
  rewrite <- seq_shift, map_map. exact IH.
Qed.

Lemma DataLoader_batch_size_one (dataset : list Windower.Chunk) :
  Loader.DataLoader dataset 1
  = Ok (map (fun c => Loader.default_collate [c]) dataset).
Proof.
  unfold Loader.DataLoader.
  rewrite py_range_positive by lia. cbn [bind]. f_equal.
  rewrite Nat.add_0_r, Nat.div_1_r, map_map.
  rewrite <- (map_map (fun x => [x]) Loader.default_collate).
  rewrite <- singleton_slices, map_map.
  apply map_ext. intros k. now rewrite Nat.mul_1_r.
Qed.

Lemma predicted_single_window
    (predicted_labels : Network) (c : Windower.Chunk) :
  one_label_per_step predicted_labels ->
  predicted_labels [Windower.data c]
  = Ok [window_labels predicted_labels c] /\
  length (window_labels predicted_labels c) = length (Windower.data c).
Proof.
  intros Hshape. destruct (Hshape [Windower.data c]) as [rows [Hrun Hlen]].
  unfold window_labels, first_row. rewrite Hrun. cbn [bind].
  destruct rows as [|row [|row' more]]; simpl in *; try discriminate.
  injection Hlen as Hlen. auto.
Qed.

(** On singleton batches the three accumulators grow by one whole window per
    batch, in loader order. *)
Lemma inference_loop_singletons
    (predicted_labels : Network)
    (dataset : list Windower.Chunk)
    (predictions : list Z) (series_ids : list string) (steps : list scalar) :
  one_label_per_step predicted_labels ->
  inference_loop predicted_labels
    (map (fun c => Loader.default_collate [c]) dataset)
    predictions series_ids steps
  = Ok (predictions ++ concat (map (window_labels predicted_labels) dataset),
        series_ids ++
        concat (map (fun c => repeat (Windower.series_id c)
                                (length (window_labels predicted_labels c)))
                    dataset),
        steps ++ concat (map Windower.step dataset)).
Proof.
  intros Hshape. revert predictions series_ids steps.
  induction dataset as [|c dataset IH]; intros predictions series_ids steps.
  - simpl. now rewrite !app_nil_r.
  - cbn [map inference_loop Loader.default_collate Loader.data
         Loader.series_id Loader.step].
    destruct (predicted_single_window c Hshape) as [-> _].
    cbn [index0 bind]. rewrite IH. cbn [concat].
    now rewrite !app_assoc.
Qed.

(** *** [pred_to_dict] *)

Lemma dict_get_append_same (d : PredDict) (sid : string) (st : scalar)
    (p : Z) :
  dict_get (dict_append d sid st p) sid
  = Some {| preds := entry_preds (dict_get d sid) ++ [p];
            steps := entry_steps (dict_get d sid) ++ [st] |}.
Proof.
  induction d as [|[k v] d IH]; simpl.
  - now rewrite String.eqb_refl.
  - destruct (String.eqb_spec k sid) as [->|Hne]; simpl.
    + now rewrite String.eqb_refl.
    + destruct (String.eqb_spec k sid) as [Heq|_]; [contradiction | exact IH].
Qed.

Lemma dict_get_append_other (d : PredDict) (sid other : string)
    (st : scalar) (p : Z) :
  sid <> other ->
  dict_get (dict_append d sid st p) other = dict_get d other.
Proof.
  intros Hne. induction d as [|[k v] d IH]; simpl.
  - destruct (String.eqb_spec sid other) as [Heq|_];
      [contradiction | reflexivity].
  - destruct (String.eqb_spec k sid) as [->|Hk]; simpl.
    + destruct (String.eqb_spec sid other) as [Heq|_];
        [contradiction | reflexivity].
    + destruct (String.eqb_spec k other); [reflexivity | exact IH].
Qed.

(** Samples are taken in blocks when the three lists are cut alike. *)
Lemma pred_to_dict_from_app (d : PredDict) (s1 s2 : list string)
    (t1 t2 : list scalar) (p1 p2 : list Z) :
  length t1 = length s1 -> length p1 = length s1 ->
  pred_to_dict_from d (s1 ++ s2) (t1 ++ t2) (p1 ++ p2)
  = pred_to_dict_from (pred_to_dict_from d s1 t1 p1) s2 t2 p2.
Proof.
  revert d t1 p1. induction s1 as [|s s1 IH]; intros d t1 p1 Ht Hp.
  - destruct t1, p1; try discriminate. reflexivity.
  - destruct t1 as [|t t1], p1 as [|p p1]; try discriminate.
    simpl. apply IH; simpl in *; lia.
Qed.

(** One window of series [sid]: its labels and steps are appended to the
    entry of [sid], and no other entry changes. *)
Lemma pred_to_dict_from_window (d : PredDict) (sid : string)
    (t : list scalar) (p : list Z) :
  length t = length p ->
  entry_preds (dict_get (pred_to_dict_from d (repeat sid (length p)) t p) sid)
  = entry_preds (dict_get d sid) ++ p /\
  entry_steps (dict_get (pred_to_dict_from d (repeat sid (length p)) t p) sid)
  = entry_steps (dict_get d sid) ++ t /\
  forall other, sid <> other ->
    dict_get (pred_to_dict_from d (repeat sid (length p)) t p) other
    = dict_get d other.
Proof.
  revert d t. induction p as [|p0 p IH]; intros d t Hlen.
  - destruct t; [|discriminate]. simpl. now rewrite !app_nil_r.
  - destruct t as [|t0 t]; [discriminate|]. simpl.
    destruct (IH (dict_append d sid t0 p0) t) as [Hp [Ht Ho]];
      [simpl in Hlen; lia|].
    rewrite Hp, Ht, dict_get_append_same. simpl.
    rewrite <- !app_assoc. repeat split.
    intros other Hne. rewrite Ho by exact Hne.
    now apply dict_get_append_other.
Qed.

(** All the windows of a dataset, taken one after the other: the entry of a
    series collects the labels and the steps of its own windows, in dataset
    order. *)
Lemma pred_to_dict_from_windows
    (labels : Windower.Chunk -> list Z) (dataset : list Windower.Chunk)
    (d : PredDict) (sid : string) :
  Forall (fun c => length (Windower.step c) = length (labels c)) dataset ->
  let result :=
    pred_to_dict_from d
      (concat (map (fun c => repeat (Windower.series_id c) (length (labels c)))
                   dataset))
      (concat (map Windower.step dataset))
      (concat (map labels dataset)) in
  entry_preds (dict_get result sid)
  = entry_preds (dict_get d sid)
    ++ concat (map labels (Windower.windows_of sid dataset)) /\
  entry_steps (dict_get result sid)
  = entry_steps (dict_get d sid)
    ++ concat (map Windower.step (Windower.windows_of sid dataset)).
Proof.
  intros Hlen. revert d.
  induction Hlen as [|c dataset Hc _ IH]; intros d; cbn zeta.
  - simpl. now rewrite !app_nil_r.
  - cbn [map concat].
    rewrite pred_to_dict_from_app
      by (rewrite repeat_length; auto).
    cbn zeta in IH. destruct (IH
      (pred_to_dict_from d
         (repeat (Windower.series_id c) (length (labels c)))
         (Windower.step c) (labels c))) as [Hp Ht].
    rewrite Hp, Ht.
    destruct (pred_to_dict_from_window d (Windower.series_id c) _ _ Hc)
      as [Hp1 [Ht1 Ho1]].
    unfold Windower.windows_of. cbn [filter].
    destruct (String.eqb_spec (Windower.series_id c) sid) as [<-|Hne].
    + rewrite Hp1, Ht1. cbn [map concat]. now rewrite <- !app_assoc.
    + now rewrite (Ho1 sid Hne).
Qed.

Lemma length_concat_windows {A B : Type} (f : A -> list B) (w : nat)
    (xs : list A) :
  Forall (fun x => length (f x) = w) xs ->
  length (concat (map f xs)) = length xs * w.
Proof.
  induction 1 as [|x xs Hx _ IH]; simpl; [reflexivity|].
  rewrite length_app, IH, Hx. reflexivity.
Qed.

(** C7, as amended.  When the loader serves one window per batch, the
    reassembled sequence of a series that has [n] windows of [W] samples in
    the dataset has exactly [n * W] labels and [n * W] steps: its step vector
    is the concatenation of the step vectors of those windows and its label
    vector the concatenation of their label rows, both in dataset order, with
    nothing reordered and nothing removed. *)
Theorem reassembly_with_batch_size_one
    (predicted_labels : Network)
    (dataset : list Windower.Chunk) (W : nat) (sid : string) :
  0 < W ->
  one_label_per_step predicted_labels ->
  Forall (fun c => length (Windower.step c) = W /\
                   length (Windower.data c) = W) dataset ->
  Windower.windows_of sid dataset <> [] ->
  exists loader predictions series_ids steps sd,
    Loader.DataLoader dataset 1 = Ok loader /\
    inference_loop predicted_labels loader [] [] []
    = Ok (predictions, series_ids, steps) /\
    dict_get (pred_to_dict series_ids steps predictions) sid = Some sd /\
    length (preds sd) = length (Windower.windows_of sid dataset) * W /\
    length (Extractor.steps sd)
    = length (Windower.windows_of sid dataset) * W /\
    Extractor.steps sd
    = concat (map Windower.step (Windower.windows_of sid dataset)) /\
    preds sd
    = concat (map (window_labels predicted_labels)
                  (Windower.windows_of sid dataset)).
Proof.
  intros HW Hshape Hlen Hsome.
  assert (Hrows : Forall (fun c => length (window_labels predicted_labels c)
                                   = W) dataset).
  { apply Forall_impl with (2 := Hlen). intros c [_ Hd].
    destruct (predicted_single_window c Hshape) as [_ ->]. exact Hd. }
  assert (Hsteps : Forall (fun c => length (Windower.step c) = W) dataset).
  { apply Forall_impl with (2 := Hlen). intros c [Hs _]. exact Hs. }
  assert (Hboth : Forall (fun c => length (Windower.step c)
                      = length (window_labels predicted_labels c)) dataset).
  { rewrite Forall_forall in *. intros c Hc.
    now rewrite (Hrows c Hc), (Hsteps c Hc). }
  destruct (pred_to_dict_from_windows (window_labels predicted_labels)
              [] sid Hboth) as [Hp Ht].
  cbn [dict_get entry_preds entry_steps app] in Hp, Ht.
  assert (Hsub : forall P : Windower.Chunk -> Prop,
            Forall P dataset -> Forall P (Windower.windows_of sid dataset)).
  { intros P HP. rewrite Forall_forall in *. intros c Hc.
    apply HP. unfold Windower.windows_of in Hc.
    apply filter_In in Hc. tauto. }
  pose proof (length_concat_windows _ (Hsub _ Hrows)) as Hnp.
  pose proof (length_concat_windows _ (Hsub _ Hsteps)) as Hnt.
  eexists _, _, _, _.
  destruct (dict_get
              (pred_to_dict
                 (concat (map (fun c => repeat (Windower.series_id c)
                            (length (window_labels predicted_labels c)))
                            dataset))
                 (concat (map Windower.step dataset))
                 (concat (map (window_labels predicted_labels) dataset)))
              sid) as [sd|] eqn:Hget.
  - exists sd. unfold pred_to_dict in Hget.
    rewrite Hget in Hp, Ht. simpl in Hp, Ht.
    split; [apply DataLoader_batch_size_one|].
    split; [rewrite inference_loop_singletons by exact Hshape; reflexivity|].
    split; [exact Hget|].
    rewrite Hp, Ht. auto.
  - exfalso. unfold pred_to_dict in Hget. rewrite Hget in Hp. simpl in Hp.
    destruct (Windower.windows_of sid dataset) as [|c ws]; [now apply Hsome|].
    rewrite <- Hp in Hnp. simpl in Hnp. lia.
Qed.

End PipelineProps.

Section PipelineRuns.
Import Extractor Examples.

Lemma sign_labels_first_row_local : first_row_local sign_labels.
Proof.
  intros x y H. unfold first_row, sign_labels. cbn [bind].
  destruct x, y; simpl in *; try reflexivity; try discriminate.
  now injection H as ->.
Qed.

Lemma sign_labels_one_label_per_step : one_label_per_step sign_labels.
Proof.
  intros x. eexists. split; [reflexivity|].
  rewrite map_map. apply map_ext. intros w. apply length_map.
Qed.

(** C9 on two loaders of batch size two: the second window of the only batch
    differs, the first is the same, and so is the event table. *)
Lemma predict_events_reads_first_window_only_witness :
  loader_of boundary_chunks 2 <> loader_of flat_chunks 2 /\
  predict_events sign_labels no_cleaning no_cleaning
                 (loader_of boundary_chunks 2)
  = predict_events sign_labels no_cleaning no_cleaning
                   (loader_of flat_chunks 2).
Proof.
  split; [intros H; vm_compute in H; discriminate H|].
  apply (@predict_events_reads_first_window_only exact_scalars sign_labels
           no_cleaning no_cleaning).
  - exact sign_labels_first_row_local.
  - vm_compute. constructor; [repeat split | constructor].
Defined.

(** The claim C7 fails with a batch size of two.  The series has two windows
    of three samples, the network gives one label per step, and the
    reassembled sequence has three samples, those of the first window. *)
Lemma reassembly_drops_windows_with_batch_size_two :
  length (Windower.windows_of "s1" boundary_chunks) = 2 /\
  Forall (fun c => length (Windower.step c) = 3 /\
                   length (Windower.data c) = 3) boundary_chunks /\
  one_label_per_step sign_labels /\
  Loader.DataLoader boundary_chunks 2 = Ok (loader_of boundary_chunks 2) /\
  inference_loop sign_labels (loader_of boundary_chunks 2) [] [] []
  = Ok ([0; 0; 0]%Z, ["s1"; "s1"; "s1"], [10#1; 20#1; 30#1]) /\
  pred_to_dict ["s1"; "s1"; "s1"] [10#1; 20#1; 30#1] [0; 0; 0]%Z
  = [ ("s1", {| preds := [0; 0; 0]%Z; steps := [10#1; 20#1; 30#1] |}) ].
Proof.
  split; [reflexivity|]. split; [repeat constructor|].
  split; [exact sign_labels_one_label_per_step|].
  split; [reflexivity|]. split; reflexivity.
Qed.

(** C7 as amended, on series ["s1"] of the frame of two series: two windows
    of two samples, served one per batch. *)
Lemma reassembly_with_batch_size_one_witness :
  exists loader predictions series_ids steps sd,
    Loader.DataLoader demo_chunks 1 = Ok loader /\
    inference_loop sign_labels loader [] [] []
    = Ok (predictions, series_ids, steps) /\
    dict_get (pred_to_dict series_ids steps predictions) "s1" = Some sd /\
    length (preds sd) = length (Windower.windows_of "s1" demo_chunks) * 2 /\
    length (Extractor.steps sd)
    = length (Windower.windows_of "s1" demo_chunks) * 2 /\
    Extractor.steps sd
    = concat (map Windower.step (Windower.windows_of "s1" demo_chunks)) /\
    preds sd
    = concat (map (window_labels sign_labels)
                  (Windower.windows_of "s1" demo_chunks)).
Proof.
  apply (@reassembly_with_batch_size_one exact_scalars sign_labels
           demo_chunks 2 "s1").
  - lia.
  - exact sign_labels_one_label_per_step.
  - repeat constructor.
  - discriminate.
Defined.

End PipelineRuns.

(** ** The dataset object *)

Section DatasetProps.
Context {NS : NumpyScalars}.
Import Windower Dataset.

Lemma length_flat_map_windows (W : nat) (is_test : bool) (df : DataFrame)
    (ids : list string) :
  length (flat_map (series_windows W is_test df) ids)
  = window_total df W ids.
Proof.
  unfold window_total.
  induction ids as [|sid ids IH]; simpl; [reflexivity|].
  rewrite length_app, IH. unfold series_windows at 1.
  now rewrite length_map, length_seq.
Qed.

Lemma init_wellformed (hook : string -> hook_outcome) (df : DataFrame)
    (W : nat) (is_test : bool) :
  0 < W ->
  timestamps_wellformed df ->
  init hook df W is_test
  = ([], Ok {| self_data := df;
               self_is_test := is_test;
               self_sequence_length := W;
               self_series_ids := unique (map col_series_id df);
               self_data_chunks :=
                 flat_map (series_windows W is_test df)
                          (unique (map col_series_id df)) |}).
Proof.
  intros HW Hwf. unfold init.
  now rewrite preprocess_data_wellformed.
Qed.

(** X1.  The length of the dataset is the sum, over the series of the frame, of
    the whole number of windows that fit into each series. *)
Theorem dataset_length_is_sum_of_quotients (hook : string -> hook_outcome)
    (df : DataFrame) (W : nat) (is_test : bool) :
  0 < W ->
  timestamps_wellformed df ->
  exists self,
    init hook df W is_test = ([], Ok self) /\
    len self
    = list_sum (map (fun sid => length (select_series df sid) / W)
                    (unique (map col_series_id df))).
Proof.
  intros HW Hwf. eexists. split; [now apply init_wellformed|].
  unfold len. simpl. apply length_flat_map_windows.
Qed.

Lemma py_index_in_range {A : Type} (xs : list A) (i : nat) (x : A) :
  nth_error xs i = Some x ->
  py_index xs (Z.of_nat i) = Ok x /\
  py_index xs (Z.of_nat i - Z.of_nat (length xs)) = Ok x.
Proof.
  intros Hx.
  assert (Hi : i < length xs) by (apply nth_error_Some; congruence).
  unfold py_index. split.
  - destruct (Z.ltb_spec (Z.of_nat i) 0) as [Hneg|_]; [lia|].
    destruct (Z.ltb_spec (Z.of_nat i) 0) as [Hneg|_]; [lia|].
    destruct (Z.leb_spec (Z.of_nat (length xs)) (Z.of_nat i)) as [Hbig|_];
      [lia|].
    simpl. now rewrite Nat2Z.id, Hx.
  - destruct (Z.ltb_spec (Z.of_nat i - Z.of_nat (length xs)) 0) as [_|Hpos];
      [|lia].
    replace (Z.of_nat i - Z.of_nat (length xs) + Z.of_nat (length xs))%Z
      with (Z.of_nat i) by lia.
    destruct (Z.ltb_spec (Z.of_nat i) 0) as [Hneg|_]; [lia|].
    destruct (Z.leb_spec (Z.of_nat (length xs)) (Z.of_nat i)) as [Hbig|_];
      [lia|].
    simpl. now rewrite Nat2Z.id, Hx.
Qed.

(** X2.  Which window sits at which index: the windows of a series follow those
    of all the series that appear before it in the frame, so window [k] of a
    series is the item at the number of earlier windows plus [k], and, read
    from the end, at that index minus the length of the dataset. *)
Theorem dataset_getitem_is_window (hook : string -> hook_outcome)
    (df : DataFrame) (W : nat) (is_test : bool)
    (pre : list string) (sid : string) (post : list string) (k : nat) :
  0 < W ->
  timestamps_wellformed df ->
  unique (map col_series_id df) = pre ++ sid :: post ->
  k < length (select_series df sid) / W ->
  exists self,
    init hook df W is_test = ([], Ok self) /\
    getitem self (Z.of_nat (window_total df W pre + k))
    = Ok (window_at W is_test df sid k) /\
    getitem self (Z.of_nat (window_total df W pre + k) - Z.of_nat (len self))
    = Ok (window_at W is_test df sid k).
Proof.
  intros HW Hwf Hids Hk. eexists. split; [now apply init_wellformed|].
  unfold getitem, len. cbn [self_data_chunks].
  apply py_index_in_range.
  rewrite Hids, flat_map_app. cbn [flat_map].
  rewrite nth_error_app2 by (rewrite length_flat_map_windows; lia).
  rewrite length_flat_map_windows.
  replace (window_total df W pre + k - window_total df W pre) with k by lia.
  rewrite nth_error_app1
    by (unfold series_windows; now rewrite length_map, length_seq).
  unfold series_windows. rewrite nth_error_map, nth_error_seq.
  destruct (Nat.ltb_spec k (length (select_series df sid) / W)); [|lia].
  reflexivity.
Qed.

(** ** Edge cases of the Windower *)

Lemma unique_cons (x : string) (xs : list string) :
  exists rest, unique (x :: xs) = x :: rest.
Proof. unfold unique. simpl. eauto. Qed.

(** X3.  A window length of zero never yields a dataset from a frame that has a
    row: the [range] of the first series raises [ValueError], unless the
    debugger was entered for that series and quit before. *)
Theorem zero_sequence_length_raises (hook : string -> hook_outcome)
    (df : DataFrame) (is_test : bool) :
  df <> [] ->
  (snd (preprocess_data hook df 0 is_test) = Raise ValueError \/
   snd (preprocess_data hook df 0 is_test) = Raise BdbQuit) /\
  (timestamps_wellformed df ->
   preprocess_data hook df 0 is_test = ([], Raise ValueError)).
Proof.
  intros Hne. destruct df as [|r df]; [now elim Hne|].
  unfold preprocess_data.
  destruct (unique_cons (col_series_id r) (map col_series_id df))
    as [rest Hids].
  cbn [map]. rewrite Hids. cbn [series_loop]. unfold py_range.
  cbn [Nat.eqb bind]. split.
  - destruct (timestamp_vector _); [left; reflexivity|].
    destruct (hook _); [left | right]; reflexivity.
  - intros Hwf.
    destruct (wellformed_series (col_series_id r) Hwf) as [ts ->].
    reflexivity.
Qed.

Lemma select_series_present (df : DataFrame) (sid : string) :
  In sid (map col_series_id df) -> select_series df sid <> [].
Proof.
  intros Hin. apply in_map_iff in Hin. destruct Hin as [r [Hr Hin]].
  intros Hnil.
  assert (In r (select_series df sid)) as Habs.
  { apply filter_In. split; [exact Hin|]. now apply String.eqb_eq. }
  rewrite Hnil in Habs. exact Habs.
Qed.

(** X4.  When the very first series has a malformed timestamp and the debugger
    session is resumed, the local variable [timestamp] was never bound: the
    first window of that series raises [UnboundLocalError]. *)
Theorem first_series_malformed_resumed_raises
    (hook : string -> hook_outcome) (df : DataFrame) (W : nat)
    (is_test : bool) (sid : string) (post : list string) :
  0 < W ->
  unique (map col_series_id df) = sid :: post ->
  series_malformed df sid ->
  hook sid = Resume ->
  preprocess_data hook df W is_test = ([sid], Raise UnboundLocalError).
Proof.
  intros HW Hids Hbad Hhook. unfold preprocess_data. rewrite Hids.
  cbn [series_loop]. rewrite (malformed_series Hbad), Hhook.
  rewrite (py_range_positive _ HW). cbn [bind].
  assert (Hin : In sid (map col_series_id df)).
  { apply unique_in. rewrite Hids. now left. }
  apply select_series_present in Hin.
  assert (Hlen : 0 < length (feature_matrix (select_series df sid))).
  { unfold feature_matrix. rewrite length_map.
    destruct (select_series df sid); [now elim Hin | simpl; lia]. }
  assert (Hm : 0 < (length (feature_matrix (select_series df sid))
                    + (W - 1)) / W).
  { apply Nat.div_str_pos. lia. }
  destruct ((length (feature_matrix (select_series df sid)) + (W - 1)) / W)
    as [|m]; [lia|].
  reflexivity.
Qed.

End DatasetProps.

(** ** Test mode against training mode, and resumed breakpoints *)

Section WindowerModes.
Context {NS : NumpyScalars}.
Import Windower Dataset.

Lemma chunk_body_erase (W : nat) (sid : string) (sd : DataFrame)
    (data : list (scalar * scalar)) (ts : option (list scalar))
    (step : list scalar) (acc : list Chunk) (i : nat) :
  chunk_body W true sid sd data ts step (map erase_label acc) i
  = (out <- chunk_body W false sid sd data ts step acc i ;;
     Ok (map erase_label out)).
Proof.
  unfold chunk_body. destruct ts as [ts|]; cbn [bind]; [|reflexivity].
  destruct (length (py_slice i (i + W) data) =? W); cbn [negb bind];
    [|reflexivity].
  now rewrite map_app.
Qed.

Lemma for_each_erase (W : nat) (sid : string) (sd : DataFrame)
    (data : list (scalar * scalar)) (ts : option (list scalar))
    (step : list scalar) (idx : list nat) (acc : list Chunk) :
  for_each (chunk_body W true sid sd data ts step) idx (map erase_label acc)
  = (out <- for_each (chunk_body W false sid sd data ts step) idx acc ;;
     Ok (map erase_label out)).
Proof.
  revert acc. induction idx as [|i idx IH]; intros acc; [reflexivity|].
  cbn [for_each]. rewrite chunk_body_erase.
  destruct (chunk_body W false sid sd data ts step acc i) as [out|e];
    cbn [bind]; [apply IH | reflexivity].
Qed.

Lemma series_loop_erase (hook : string -> hook_outcome) (W : nat)
    (df : DataFrame) (ids : list string) (ts : option (list scalar))
    (acc : list Chunk) (bps : list string) :
  series_loop hook W true df ids ts (map erase_label acc) bps
  = (fst (series_loop hook W false df ids ts acc bps),
     out <- snd (series_loop hook W false df ids ts acc bps) ;;
     Ok (map erase_label out)).
Proof.
  revert ts acc bps.
  induction ids as [|sid ids IH]; intros ts acc bps; [reflexivity|].
  cbn [series_loop].
  assert (Hstep : forall ts' bps',
    match
      idx <- py_range 0 (length (feature_matrix (select_series df sid))) W ;;
      for_each (chunk_body W true sid (select_series df sid)
                  (feature_matrix (select_series df sid)) ts'
                  (step_vector (select_series df sid))) idx
               (map erase_label acc)
    with
    | Ok chunks => series_loop hook W true df ids ts' chunks bps'
    | Raise e => (bps', Raise e)
    end
    = (fst match
             idx <- py_range 0
                      (length (feature_matrix (select_series df sid))) W ;;
             for_each (chunk_body W false sid (select_series df sid)
                         (feature_matrix (select_series df sid)) ts'
                         (step_vector (select_series df sid))) idx acc
           with
           | Ok chunks => series_loop hook W false df ids ts' chunks bps'
           | Raise e => (bps', Raise e)
           end,
       out <- snd match
             idx <- py_range 0
                      (length (feature_matrix (select_series df sid))) W ;;
             for_each (chunk_body W false sid (select_series df sid)
                         (feature_matrix (select_series df sid)) ts'
                         (step_vector (select_series df sid))) idx acc
           with
           | Ok chunks => series_loop hook W false df ids ts' chunks bps'
           | Raise e => (bps', Raise e)
           end ;;
       Ok (map erase_label out))).
  { intros ts' bps'.
    destruct (py_range 0 (length (feature_matrix (select_series df sid))) W)
      as [idx|e]; cbn [bind]; [|reflexivity].
    rewrite for_each_erase.
    destruct (for_each _ idx acc) as [out|e]; cbn [bind];
      [apply IH | reflexivity]. }
  destruct (timestamp_vector (select_series df sid)) as [v|];
    [apply Hstep|].
  destruct (hook sid); [apply Hstep | reflexivity].
Qed.

(** On a frame with a [label] column the flag [is_test] only decides whether
    a chunk has the key ['label']: the test-mode run enters the breakpoint at
    the same series as the training-mode run, raises the same exception if
    that one raises, and otherwise returns its chunks without their labels. *)
Lemma preprocess_data_erase (hook : string -> hook_outcome)
    (df : DataFrame) (W : nat) :
  preprocess_data hook df W true
  = (fst (preprocess_data hook df W false),
     chunks <- snd (preprocess_data hook df W false) ;;
     Ok (map erase_label chunks)).
Proof.
  unfold preprocess_data.
  exact (series_loop_erase hook W df (unique (map col_series_id df))
                           None [] []).
Qed.

(** Frames that agree on every column but [label]. *)
Lemma select_series_unlabelled (df df' : DataFrame) (sid : string) :
  map unlabelled df = map unlabelled df' ->
  map unlabelled (select_series df sid)
  = map unlabelled (select_series df' sid).
Proof.
  revert df'. induction df as [|r df IH]; intros [|r' df'] Heq;
    try discriminate; [reflexivity|].
  cbn [map] in Heq.
  assert (Hr : unlabelled r = unlabelled r') by congruence.
  assert (Hrest : map unlabelled df = map unlabelled df') by congruence.
  unfold select_series. cbn [filter].
  replace (col_series_id r) with (col_series_id r')
    by (symmetry; exact (f_equal fst Hr)).
  destruct (String.eqb (col_series_id r') sid).
  - cbn [map]. rewrite Hr. f_equal. now apply IH.
  - now apply IH.
Qed.

Lemma column_unlabelled {B : Type}
    (f : string * (scalar * (scalar * (TimestampCell * scalar))) -> B)
    (sd sd' : DataFrame) :
  map unlabelled sd = map unlabelled sd' ->
  map (fun r => f (unlabelled r)) sd = map (fun r => f (unlabelled r)) sd'.
Proof. intros Heq. now rewrite <- !(map_map unlabelled f), Heq. Qed.

Lemma columns_unlabelled (sd sd' : DataFrame) :
  map unlabelled sd = map unlabelled sd' ->
  feature_matrix sd = feature_matrix sd' /\
  step_vector sd = step_vector sd' /\
  timestamp_vector sd = timestamp_vector sd'.
Proof.
  intros Heq. split; [|split].
  - exact (column_unlabelled
             (fun u => (astype_float32 (fst (snd u)),
                        astype_float32 (fst (snd (snd u))))) _ _ Heq).
  - exact (column_unlabelled
             (fun u => astype_float32 (snd (snd (snd (snd u))))) _ _ Heq).
  - unfold timestamp_vector. f_equal. f_equal.
    exact (column_unlabelled (fun u => fst (snd (snd (snd u)))) _ _ Heq).
Qed.

(** In test mode the inner loop does not look at the frame of the series. *)
Lemma chunk_loop_test_frame (W : nat) (sid : string) (sd sd' : DataFrame)
    (data : list (scalar * scalar)) (ts : option (list scalar))
    (step : list scalar) (idx : list nat) (acc : list Chunk) :
  for_each (chunk_body W true sid sd data ts step) idx acc
  = for_each (chunk_body W true sid sd' data ts step) idx acc.
Proof.
  revert acc. induction idx as [|i idx IH]; intros acc; [reflexivity|].
  cbn [for_each].
  replace (chunk_body W true sid sd data ts step acc i)
    with (chunk_body W true sid sd' data ts step acc i) by reflexivity.
  destruct (chunk_body W true sid sd' data ts step acc i) as [out|e];
    cbn [bind]; [apply IH | reflexivity].
Qed.

Lemma series_loop_unlabelled (hook : string -> hook_outcome) (W : nat)
    (df df' : DataFrame) (ids : list string) (ts : option (list scalar))
    (acc : list Chunk) (bps : list string) :
  map unlabelled df = map unlabelled df' ->
  series_loop hook W true df ids ts acc bps
  = series_loop hook W true df' ids ts acc bps.
Proof.
  intros Heq. revert ts acc bps.
  induction ids as [|sid ids IH]; intros ts acc bps; [reflexivity|].
  cbn [series_loop].
  destruct (@columns_unlabelled _ _
              (select_series_unlabelled df df' sid Heq))
    as [Hdata [Hstep Hts]].
  rewrite Hdata, Hstep, Hts.
  assert (Hbody : forall ts' bps',
    match
      idx <- py_range 0 (length (feature_matrix (select_series df' sid))) W ;;
      for_each (chunk_body W true sid (select_series df sid)
                  (feature_matrix (select_series df' sid)) ts'
                  (step_vector (select_series df' sid))) idx acc
    with
    | Ok chunks => series_loop hook W true df ids ts' chunks bps'
    | Raise e => (bps', Raise e)
    end
    = match
        idx <- py_range 0
                 (length (feature_matrix (select_series df' sid))) W ;;
        for_each (chunk_body W true sid (select_series df' sid)
                    (feature_matrix (select_series df' sid)) ts'
                    (step_vector (select_series df' sid))) idx acc
      with
      | Ok chunks => series_loop hook W true df' ids ts' chunks bps'
      | Raise e => (bps', Raise e)
      end).
  { intros ts' bps'.
    destruct (py_range 0 (length (feature_matrix (select_series df' sid))) W)
      as [idx|e]; cbn [bind]; [|reflexivity].
    rewrite (chunk_loop_test_frame W sid (select_series df sid)
               (select_series df' sid)).
    destruct (for_each _ idx acc) as [out|e]; [apply IH | reflexivity]. }
  destruct (timestamp_vector (select_series df' sid)) as [v|];
    [apply Hbody|].
  destruct (hook sid); [apply Hbody | reflexivity].
Qed.

(** X5.  Test mode never reads the [label] column.  Frames that agree on
    every other column give the same test-mode run: the same breakpoint
    calls and the same exception or chunks.  That run is the training-mode
    run on any such frame (one that has the [label] column, as every frame
    here has) with the key ['label'] taken out of every chunk. *)
Theorem test_mode_never_reads_labels (hook : string -> hook_outcome)
    (df df' : DataFrame) (W : nat) :
  map unlabelled df = map unlabelled df' ->
  preprocess_data hook df W true = preprocess_data hook df' W true /\
  preprocess_data hook df W true
  = (fst (preprocess_data hook df' W false),
     chunks <- snd (preprocess_data hook df' W false) ;;
     Ok (map erase_label chunks)).
Proof.
  intros Heq.
  assert (Hsame : preprocess_data hook df W true
                  = preprocess_data hook df' W true).
  { unfold preprocess_data.
    replace (map col_series_id df) with (map col_series_id df').
    - now apply series_loop_unlabelled.
    - symmetry. exact (column_unlabelled fst _ _ Heq). }
  split; [exact Hsame|].
  rewrite Hsame. apply preprocess_data_erase.
Qed.

End WindowerModes.

Section ResumedRuns.
Context {NS : NumpyScalars}.
Import Windower Dataset.

Lemma not_malformed_parses (df : DataFrame) (sid : string) :
  series_malformedb df sid = false ->
  exists ts, timestamp_vector (select_series df sid) = Some ts.
Proof.
  unfold series_malformedb, timestamp_vector. intros Hok.
  destruct (to_datetime_parsed (map col_timestamp (select_series df sid)))
    as [ns ->]; [|simpl; eauto].
  rewrite forallb_forall. intros cell Hcell.
  apply in_map_iff in Hcell. destruct Hcell as [r [<- Hr]].
  destruct (is_parsed (col_timestamp r)) eqn:E; [reflexivity|].
  assert (existsb (fun r => negb (is_parsed (col_timestamp r)))
                  (select_series df sid) = true) as Hex.
  { apply existsb_exists. exists r. split; [exact Hr|]. now rewrite E. }
  congruence.
Qed.

Lemma parses_not_malformed (df : DataFrame) (sid : string)
    (ts : list scalar) :
  timestamp_vector (select_series df sid) = Some ts ->
  series_malformedb df sid = false.
Proof.
  intros Hts. destruct (series_malformedb df sid) eqn:E; [|reflexivity].
  assert (series_malformed df sid) as Hbad by exact E.
  rewrite (malformed_series Hbad) in Hts. discriminate.
Qed.

(** The inner loop with any vector in the variable [timestamp]. *)
Lemma chunk_loop_with (W : nat) (is_test : bool) (df : DataFrame)
    (sid : string) (ts : list scalar) (ks : list nat) (acc : list Chunk) :
  0 < W ->
  for_each (chunk_body W is_test sid (select_series df sid)
                       (feature_matrix (select_series df sid)) (Some ts)
                       (step_vector (select_series df sid)))
           (map (fun k => k * W) ks) acc
  = Ok (acc ++ map (window_with W is_test df sid ts)
                   (filter (fun k => k <? length (select_series df sid) / W)
                           ks)).
Proof.
  intros HW. revert acc.
  induction ks as [|k ks IH]; intros acc; simpl.
  - now rewrite app_nil_r.
  - unfold chunk_body at 1. simpl.
    rewrite py_slice_length.
    unfold feature_matrix at 1. rewrite length_map.
    destruct (Nat.ltb_spec k (length (select_series df sid) / W)) as [Hk|Hk].
    + apply (window_fits_iff (length (select_series df sid)) k HW) in Hk.
      replace (Nat.min W (length (select_series df sid) - k * W) =? W)
        with true by (symmetry; apply Nat.eqb_eq; lia).
      destruct is_test; simpl; rewrite IH; simpl;
        rewrite <- app_assoc; reflexivity.
    + assert (~ k * W + W <= length (select_series df sid)) as Hno.
      { intros Hfit. apply (window_fits_iff _ k HW) in Hfit. lia. }
      replace (Nat.min W (length (select_series df sid) - k * W) =? W)
        with false by (symmetry; apply Nat.eqb_neq; lia).
      apply IH.
Qed.

Lemma series_step_with (W : nat) (is_test : bool) (df : DataFrame)
    (sid : string) (ts : list scalar) (acc : list Chunk) :
  0 < W ->
  (idx <- py_range 0 (length (feature_matrix (select_series df sid))) W ;;
   for_each (chunk_body W is_test sid (select_series df sid)
                        (feature_matrix (select_series df sid)) (Some ts)
                        (step_vector (select_series df sid))) idx acc)
  = Ok (acc ++ map (window_with W is_test df sid ts)
                   (seq 0 (window_count df W sid))).
Proof.
  intros HW. rewrite (py_range_positive _ HW). cbn [bind].
  rewrite (chunk_loop_with is_test df sid ts _ acc HW).
  rewrite filter_below_seq; [reflexivity|].
  unfold feature_matrix. rewrite length_map. now apply ceil_div_ge.
Qed.

(** A run in which every breakpoint session is resumed, from a bound
    [timestamp] on: it returns, it enters the breakpoint at the malformed
    series and only there, and its chunks are [resumed_windows]. *)
Lemma series_loop_resumed (hook : string -> hook_outcome) (W : nat)
    (is_test : bool) (df : DataFrame) (ids : list string)
    (v : list scalar) (acc : list Chunk) (bps : list string) :
  0 < W ->
  (forall sid, series_malformed df sid -> hook sid = Resume) ->
  series_loop hook W is_test df ids (Some v) acc bps
  = (bps ++ filter (series_malformedb df) ids,
     Ok (acc ++ resumed_windows W is_test df (Some v) ids)).
Proof.
  intros HW Hhook. revert v acc bps.
  induction ids as [|sid ids IH]; intros v acc bps.
  - simpl. now rewrite !app_nil_r.
  - cbn [series_loop resumed_windows timestamp_in_use filter].
    destruct (timestamp_vector (select_series df sid)) as [ts|] eqn:Hts.
    + rewrite (parses_not_malformed _ _ Hts).
      rewrite (series_step_with is_test df sid ts acc HW).
      rewrite IH. now rewrite <- app_assoc.
    + assert (Hbad : series_malformedb df sid = true).
      { destruct (series_malformedb df sid) eqn:E; [reflexivity|].
        destruct (not_malformed_parses _ _ E) as [ts Hsome]. congruence. }
      rewrite Hbad, (Hhook sid Hbad).
      rewrite (series_step_with is_test df sid v acc HW).
      rewrite IH. rewrite <- !app_assoc. reflexivity.
Qed.

Lemma timestamp_in_use_app (df : DataFrame) (ts0 : option (list scalar))
    (xs ys : list string) :
  timestamp_in_use df ts0 (xs ++ ys)
  = timestamp_in_use df (timestamp_in_use df ts0 xs) ys.
Proof.
  revert ts0. induction xs as [|x xs IH]; intros ts0; [reflexivity|].
  simpl. apply IH.
Qed.

Lemma timestamp_in_use_bound (df : DataFrame) (v : list scalar)
    (ids : list string) :
  exists ts, timestamp_in_use df (Some v) ids = Some ts.
Proof.
  revert v. induction ids as [|sid ids IH]; intros v; simpl; [eauto|].
  destruct (timestamp_vector (select_series df sid)); apply IH.
Qed.

Lemma resumed_windows_app (W : nat) (is_test : bool) (df : DataFrame)
    (ts0 : option (list scalar)) (xs ys : list string) :
  resumed_windows W is_test df ts0 (xs ++ ys)
  = resumed_windows W is_test df ts0 xs
    ++ resumed_windows W is_test df (timestamp_in_use df ts0 xs) ys.
Proof.
  revert ts0. induction xs as [|x xs IH]; intros ts0; [reflexivity|].
  cbn [app resumed_windows]. rewrite IH, <- app_assoc. reflexivity.
Qed.

Lemma windows_of_window_with (W : nat) (is_test : bool) (df : DataFrame)
    (sid other : string) (ts : list scalar) (ks : list nat) :
  windows_of sid (map (window_with W is_test df other ts) ks)
  = if String.eqb other sid
    then map (window_with W is_test df other ts) ks else [].
Proof.
  unfold windows_of.
  induction ks as [|k ks IH]; simpl.
  - now destruct (String.eqb other sid).
  - rewrite IH. now destruct (String.eqb other sid).
Qed.

Lemma windows_of_resumed_absent (W : nat) (is_test : bool) (df : DataFrame)
    (ts0 : option (list scalar)) (sid : string) (ids : list string) :
  ~ In sid ids ->
  windows_of sid (resumed_windows W is_test df ts0 ids) = [].
Proof.
  revert ts0. induction ids as [|x ids IH]; intros ts0 Hno; [reflexivity|].
  cbn [resumed_windows]. unfold windows_of in *. rewrite filter_app.
  rewrite IH by (intros Hin; apply Hno; now right).
  fold (windows_of sid
          (map (window_with W is_test df x
                  match timestamp_in_use df ts0 [x] with
                  | Some v => v
                  | None => []
                  end) (seq 0 (window_count df W x)))).
  rewrite windows_of_window_with.
  destruct (String.eqb_spec x sid) as [->|_]; [|reflexivity].
  exfalso. apply Hno. now left.
Qed.

(** X6.  Silent misalignment after resumed breakpoints.  On a frame whose first
    series parses, a run in which every breakpoint session is resumed
    returns normally and enters the breakpoint exactly at the malformed
    series, in order.  The windows of every series hold the feature, step
    and label slices of that series, and their timestamp slice is cut out of
    the vector in use: the series' own when it parses, and otherwise that of
    the nearest earlier series that parsed. *)
Theorem resumed_breakpoints_reuse_timestamps
    (hook : string -> hook_outcome) (df : DataFrame) (W : nat)
    (is_test : bool) (first : string) (rest : list string) :
  0 < W ->
  unique (map col_series_id df) = first :: rest ->
  ~ series_malformed df first ->
  (forall sid, series_malformed df sid -> hook sid = Resume) ->
  exists chunks,
    preprocess_data hook df W is_test
    = (filter (series_malformedb df) (first :: rest), Ok chunks) /\
    forall pre sid post,
      first :: rest = pre ++ sid :: post ->
      exists ts,
        timestamp_in_use df None (pre ++ [sid]) = Some ts /\
        windows_of sid chunks
        = map (window_with W is_test df sid ts)
              (seq 0 (length (select_series df sid) / W)).
Proof.
  intros HW Hids Hfirst Hhook.
  assert (Hok : series_malformedb df first = false).
  { destruct (series_malformedb df first) eqn:E; [|reflexivity].
    now elim Hfirst. }
  destruct (not_malformed_parses _ _ Hok) as [ts1 Hts1].
  exists (resumed_windows W is_test df None (first :: rest)).
  split.
  - unfold preprocess_data. rewrite Hids.
    cbn [series_loop resumed_windows timestamp_in_use filter].
    rewrite Hts1, Hok.
    rewrite (series_step_with is_test df first ts1 [] HW).
    rewrite (@series_loop_resumed hook W is_test df rest ts1 _ [] HW Hhook).
    reflexivity.
  - intros pre sid post Hsplit.
    assert (Hnd : NoDup (pre ++ sid :: post)).
    { rewrite <- Hsplit, <- Hids. apply unique_NoDup. }
    assert (Hsome : exists ts,
               timestamp_in_use df None (pre ++ [sid]) = Some ts).
    { destruct pre as [|p pre].
      - injection Hsplit as <- _. simpl. rewrite Hts1. eauto.
      - injection Hsplit as <- _. cbn [app timestamp_in_use].
        rewrite Hts1. apply timestamp_in_use_bound. }
    destruct Hsome as [ts Hts]. exists ts. split; [exact Hts|].
    rewrite Hsplit.
    replace (pre ++ sid :: post) with (pre ++ [sid] ++ post) by reflexivity.
    rewrite resumed_windows_app.
    unfold windows_of. rewrite filter_app.
    fold (windows_of sid (resumed_windows W is_test df None pre)).
    rewrite windows_of_resumed_absent
      by (apply NoDup_remove_2 in Hnd; intros Hin; apply Hnd;
          apply in_or_app; now left).
    cbn [app resumed_windows]. rewrite filter_app.
    fold (windows_of sid
            (resumed_windows W is_test df
               (timestamp_in_use df (timestamp_in_use df None pre) [sid])
               post)).
    rewrite windows_of_resumed_absent
      by (apply NoDup_remove_2 in Hnd; intros Hin; apply Hnd;
          apply in_or_app; now right).
    rewrite <- timestamp_in_use_app, Hts.
    rewrite app_nil_r.
    fold (windows_of sid
            (map (window_with W is_test df sid ts)
                 (seq 0 (window_count df W sid)))).
    rewrite windows_of_window_with, String.eqb_refl. reflexivity.
Qed.

End ResumedRuns.

(** ** Field alignment in every run that returns *)

Section AlignmentProps.
Context {NS : NumpyScalars}.
Import Windower Dataset.

(** With [timestamp] unbound the inner loop raises at its first iteration. *)
Lemma chunk_loop_unbound (W : nat) (is_test : bool) (sid : string)
    (sd : DataFrame) (data : list (scalar * scalar)) (step : list scalar)
    (idx : list nat) (acc : list Chunk) :
  for_each (chunk_body W is_test sid sd data None step) idx acc
  = match idx with
    | [] => Ok acc
    | _ :: _ => Raise UnboundLocalError
    end.
Proof. destruct idx; reflexivity. Qed.

(** Whatever the breakpoint sessions do, the chunks of a run that returns
    are cut out of their own series. *)
Lemma series_loop_cut (hook : string -> hook_outcome) (W : nat)
    (is_test : bool) (df : DataFrame) (ids : list string)
    (ts0 : option (list scalar)) (acc : list Chunk) (bps bps' : list string)
    (chunks : list Chunk) :
  0 < W ->
  Forall (cut_from_series W is_test df) acc ->
  series_loop hook W is_test df ids ts0 acc bps = (bps', Ok chunks) ->
  Forall (cut_from_series W is_test df) chunks.
Proof.
  intros HW. revert ts0 acc bps.
  induction ids as [|sid ids IH]; intros ts0 acc bps Hacc Hrun.
  - simpl in Hrun. injection Hrun as _ <-. exact Hacc.
  - cbn [series_loop] in Hrun.
    assert (Hnew : forall ts,
      (forall own, timestamp_vector (select_series df sid) = Some own ->
                   ts = own) ->
      Forall (cut_from_series W is_test df)
             (acc ++ map (window_with W is_test df sid ts)
                         (seq 0 (window_count df W sid)))).
    { intros ts Hown. apply Forall_app. split; [exact Hacc|].
      apply Forall_forall. intros c Hc.
      apply in_map_iff in Hc. destruct Hc as [k [<- Hk]].
      apply in_seq in Hk. exists k, ts.
      cbn [series_id window_with].
      split; [lia|]. split; [reflexivity | exact Hown]. }
    destruct (timestamp_vector (select_series df sid)) as [ts|] eqn:Hts.
    + rewrite (series_step_with is_test df sid ts acc HW) in Hrun.
      apply IH in Hrun; [exact Hrun|].
      apply Hnew. intros own Hown. congruence.
    + destruct (hook sid); [|discriminate].
      destruct ts0 as [v|].
      * rewrite (series_step_with is_test df sid v acc HW) in Hrun.
        apply IH in Hrun; [exact Hrun|].
        apply Hnew. intros own Hown. discriminate.
      * rewrite (py_range_positive _ HW) in Hrun. cbn [bind] in Hrun.
        rewrite chunk_loop_unbound in Hrun.
        destruct (map _ _) in Hrun; [|discriminate].
        now apply IH in Hrun.
Qed.

(** C10, as amended.  In every run of the Windower that returns, whatever the
    breakpoint sessions did, every chunk is a window of its own series: for
    some window number [k], its feature matrix, its step vector and (outside
    test mode) its label vector are the index range [[k * W, k * W + W)] of
    the columns of that series, the range lies within the series, and each
    of them has exactly [W] entries.  When the timestamps of that series
    parse, the timestamp vector of the chunk is that same range of them and
    has [W] entries too, so that the chunk is field-aligned. *)
Theorem chunk_fields_aligned_in_own_series (hook : string -> hook_outcome)
    (df : DataFrame) (W : nat) (is_test : bool) (bps : list string)
    (chunks : list Chunk) (c : Chunk) :
  0 < W ->
  preprocess_data hook df W is_test = (bps, Ok chunks) ->
  In c chunks ->
  exists k,
    k * W + W <= length (select_series df (series_id c)) /\
    data c = py_slice (k * W) (k * W + W)
               (feature_matrix (select_series df (series_id c))) /\
    step c = py_slice (k * W) (k * W + W)
               (step_vector (select_series df (series_id c))) /\
    label c =
      (if is_test then None
       else Some (map astype_float
                      (py_slice (k * W) (k * W + W)
                         (label_values (select_series df (series_id c)))))) /\
    length (data c) = W /\
    length (step c) = W /\
    (is_test = false -> exists l, label c = Some l /\ length l = W) /\
    (~ series_malformed df (series_id c) ->
     aligned_at W is_test df c (k * W) /\ length (timestamp c) = W).
Proof.
  intros HW Hrun Hc. unfold preprocess_data in Hrun.
  apply series_loop_cut in Hrun; [|exact HW|apply Forall_nil].
  rewrite Forall_forall in Hrun. specialize (Hrun c Hc).
  destruct Hrun as [k [ts [Hk [Hcut Hown]]]].
  unfold window_count in Hk.
  apply (window_fits_iff _ k HW) in Hk.
  exists k.
  remember (select_series df (series_id c)) as sd eqn:Hsd.
  assert (Hd : data c = py_slice (k * W) (k * W + W) (feature_matrix sd)).
  { rewrite Hcut at 1. cbn [data window_with]. now rewrite <- Hsd. }
  assert (Hs : step c = py_slice (k * W) (k * W + W) (step_vector sd)).
  { rewrite Hcut at 1. cbn [step window_with]. now rewrite <- Hsd. }
  assert (Hl : label c =
    (if is_test then None
     else Some (map astype_float
                    (py_slice (k * W) (k * W + W) (label_values sd))))).
  { rewrite Hcut at 1. cbn [label window_with]. now rewrite <- Hsd. }
  assert (Ht : timestamp c = py_slice (k * W) (k * W + W) ts).
  { rewrite Hcut at 1. reflexivity. }
  assert (Hdlen : length (data c) = W).
  { rewrite Hd. apply py_slice_full.
    unfold feature_matrix. now rewrite length_map. }
  assert (Hslen : length (step c) = W).
  { rewrite Hs. apply py_slice_full.
    unfold step_vector. now rewrite length_map. }
  split; [exact Hk|]. split; [exact Hd|]. split; [exact Hs|].
  split; [exact Hl|]. split; [exact Hdlen|]. split; [exact Hslen|].
  split.
  - intros ->. eexists. split; [exact Hl|].
    rewrite length_map. apply py_slice_full.
    unfold label_values. now rewrite length_map.
  - intros Hparses. apply not_true_is_false in Hparses.
    destruct (not_malformed_parses df (series_id c) Hparses) as [own Hsome].
    rewrite <- Hsd in Hsome. rewrite (Hown own Hsome) in Ht.
    split.
    + unfold aligned_at. rewrite <- Hsd.
      split; [exact Hk|]. split; [exact Hd|]. split; [exact Hs|].
      split; [|exact Hl]. exists own. split; [exact Hsome | exact Ht].
    + rewrite Ht. apply py_slice_full.
      now rewrite (timestamp_vector_length _ Hsome).
Qed.

End AlignmentProps.

Section AlignmentRuns.
Import Windower Dataset Examples.

(** The claim C10 fails.  Series ["s1"] has two samples, series ["s2"] has
    four and a malformed timestamp, and the session entered by
    [breakpoint()] lets the program continue.  The Windower returns three
    chunks.  The last one is the second window of ["s2"]: it has two samples
    and two steps and no timestamp at all, the range [[2, 4)] of the two
    timestamps of ["s1"] being empty; it is aligned at no index. *)
Lemma resumed_run_breaks_field_alignment :
  (exists first second,
     preprocess_data always_resume stale_frame 2 true
     = (["s2"], Ok [first; second; stale_window])) /\
  length (data stale_window) = 2 /\
  length (step stale_window) = 2 /\
  length (timestamp stale_window) = 0 /\
  forall i, ~ aligned_at 2 true stale_frame stale_window i.
Proof.
  split; [do 2 eexists; reflexivity|].
  repeat split.
  intros i [_ [_ [_ [[ts [Hts _]] _]]]]. discriminate Hts.
Qed.

(** C10 as amended, on that chunk: its samples and steps are the range
    [[2, 4)] of series ["s2"]; nothing is said of its timestamps, those of
    ["s2"] being malformed. *)
Lemma chunk_fields_aligned_in_own_series_witness :
  exists k,
    k * 2 + 2 <= length (select_series stale_frame (series_id stale_window)) /\
    data stale_window
    = py_slice (k * 2) (k * 2 + 2)
        (feature_matrix (select_series stale_frame (series_id stale_window))) /\
    step stale_window
    = py_slice (k * 2) (k * 2 + 2)
        (step_vector (select_series stale_frame (series_id stale_window))) /\
    label stale_window =
      (if true then None
       else Some (map astype_float
                    (py_slice (k * 2) (k * 2 + 2)
                       (label_values
                          (select_series stale_frame
                                         (series_id stale_window)))))) /\
    length (data stale_window) = 2 /\
    length (step stale_window) = 2 /\
    (true = false ->
     exists l, label stale_window = Some l /\ length l = 2) /\
    (~ series_malformed stale_frame (series_id stale_window) ->
     aligned_at 2 true stale_frame stale_window (k * 2) /\
     length (timestamp stale_window) = 2).
Proof.
  apply (@chunk_fields_aligned_in_own_series exact_scalars always_resume
           stale_frame 2 true ["s2"] stale_chunks stale_window).
  - lia.
  - reflexivity.
  - right. right. left. reflexivity.
Defined.

End AlignmentRuns.

(** ** More on the inference loop *)

Section LoopProps.
Context {NS : NumpyScalars}.
Import Extractor Views.

Lemma length_concat_map2 {A B C : Type} (f : A -> list B) (g : A -> list C)
    (xs : list A) :
  Forall (fun x => length (f x) = length (g x)) xs ->
  length (concat (map f xs)) = length (concat (map g xs)).
Proof.
  induction 1 as [|x xs Hx _ IH]; simpl; [reflexivity|].
  now rewrite !length_app, IH, Hx.
Qed.

(** X7.  The three accumulators stay aligned.  Whenever the loop returns, there
    is exactly one series identifier per prediction; and there is one step
    per prediction as well when, in every batch, the first step vector is as
    long as the first row of labels. *)
Theorem inference_accumulators_aligned (predicted_labels : Network)
    (loader : list Loader.Batch)
    (predictions : list Z) (series_ids : list string) (steps : list scalar) :
  inference_loop predicted_labels loader [] [] []
  = Ok (predictions, series_ids, steps) ->
  length series_ids = length predictions /\
  (Forall (fun b => length (batch_steps b)
                    = length (batch_labels predicted_labels b)) loader ->
   length steps = length predictions).
Proof.
  intros Hrun. apply inference_loop_collects in Hrun.
  destruct Hrun as [-> [-> ->]]. cbn [app]. split.
  - apply length_concat_map2. apply Forall_forall. intros b _.
    unfold batch_series_ids. apply repeat_length.
  - intros Hlen. now apply length_concat_map2.
Qed.

(** The loop on batches that each open with a window [c]: what it collects
    are the label rows, identifiers and steps of those opening windows. *)
Lemma inference_loop_groups (predicted_labels : Network)
    (groups : list (list Windower.Chunk))
    (predictions : list Z) (series_ids : list string) (steps : list scalar) :
  first_row_local predicted_labels ->
  one_label_per_step predicted_labels ->
  Forall (fun g => g <> []) groups ->
  inference_loop predicted_labels (map Loader.default_collate groups)
                 predictions series_ids steps
  = Ok (predictions
          ++ concat (map (window_labels predicted_labels)
                         (flat_map (firstn 1) groups)),
        series_ids
          ++ concat (map (fun c => repeat (Windower.series_id c)
                                     (length (Windower.data c)))
                         (flat_map (firstn 1) groups)),
        steps ++ concat (map Windower.step (flat_map (firstn 1) groups))).
Proof.
  intros Hlocal Hshape Hne. revert predictions series_ids steps.
  induction Hne as [|g groups Hg _ IH]; intros predictions series_ids steps.
  - simpl. now rewrite !app_nil_r.
  - destruct g as [|c more]; [now elim Hg|].
    cbn [map flat_map firstn app]. rewrite inference_loop_step.
    cbn [Loader.default_collate Loader.data Loader.series_id Loader.step map].
    rewrite (Hlocal (Windower.data c :: map Windower.data more)
                    [Windower.data c] eq_refl).
    destruct (predicted_single_window c Hshape) as [Hrun Hlen].
    unfold first_row. rewrite Hrun. cbn [index0 bind].
    rewrite IH. cbn [concat map]. rewrite Hlen.
    now rewrite <- !app_assoc.
Qed.

Lemma batch_group_nonempty {A : Type} (B k : nat) (xs : list A) :
  0 < B ->
  k < (length xs + (B - 1)) / B ->
  py_slice (k * B) (k * B + B) xs <> [] /\
  firstn 1 (py_slice (k * B) (k * B + B) xs) = firstn 1 (skipn (k * B) xs).
Proof.
  intros HB Hk.
  assert (Hlt : k * B < length xs).
  { assert (B * ((length xs + (B - 1)) / B) <= length xs + (B - 1))
      by apply Nat.Div0.mul_div_le.
    nia. }
  rewrite py_slice_window. split.
  - intros Hnil. apply (f_equal (@length A)) in Hnil.
    rewrite length_firstn, length_skipn in Hnil. simpl in Hnil. lia.
  - rewrite firstn_firstn. f_equal. lia.
Qed.

Lemma Forall_py_slice {A : Type} (P : A -> Prop) (lo hi : nat)
    (xs : list A) :
  Forall P xs -> Forall P (py_slice lo hi xs).
Proof.
  intros Hall. rewrite Forall_forall in *. intros x Hx. apply Hall.
  unfold py_slice in Hx.
  assert (Hskip : In x (skipn lo xs)).
  { rewrite <- (firstn_skipn (hi - lo) (skipn lo xs)).
    apply in_or_app. now left. }
  rewrite <- (firstn_skipn lo xs). apply in_or_app. now right.
Qed.

Lemma collate_of_length (W : nat) (items : list Windower.Chunk) :
  windows_of_length W items ->
  batch_of_length W (Loader.default_collate items).
Proof.
  unfold windows_of_length, batch_of_length. intros Hall.
  cbn [Loader.default_collate Loader.step Loader.timestamp Loader.data].
  rewrite !Forall_map.
  repeat split; refine (Forall_impl _ _ Hall); intros c Hc; apply Hc.
Qed.

(** X8.  What a batch size of [B] keeps.  The windows of the dataset have
    vectors of one length [W], so that the collate function can stack them.
    On the batches that the loader makes of such a dataset, with a network
    that labels every window on its own and gives one label per step, the
    loop returns; the loader has the rounded-up quotient of the number of
    windows by [B] batches, each a stack of vectors of length [W]; and the
    predictions, identifiers and steps collected are those of the windows
    number 0, [B], twice [B] and so on, one per batch, and of no other
    window. *)
Theorem inference_keeps_one_window_per_batch (predicted_labels : Network)
    (dataset : list Windower.Chunk) (W B : nat) :
  0 < B ->
  windows_of_length W dataset ->
  first_row_local predicted_labels ->
  one_label_per_step predicted_labels ->
  exists loader,
    Loader.DataLoader dataset B = Ok loader /\
    Forall (batch_of_length W) loader /\
    length loader = (length dataset + (B - 1)) / B /\
    length (batch_heads B dataset) = (length dataset + (B - 1)) / B /\
    inference_loop predicted_labels loader [] [] []
    = Ok (concat (map (window_labels predicted_labels)
                      (batch_heads B dataset)),
          concat (map (fun c => repeat (Windower.series_id c)
                                  (length (Windower.data c)))
                      (batch_heads B dataset)),
          concat (map Windower.step (batch_heads B dataset))).
Proof.
  intros HB Hstack Hlocal Hshape.
  pose (m := (length dataset + (B - 1)) / B).
  pose (groups := map (fun k => py_slice (k * B) (k * B + B) dataset)
                      (seq 0 m)).
  assert (Hheads : flat_map (firstn 1) groups = batch_heads B dataset).
  { unfold groups, batch_heads. fold m.
    rewrite !flat_map_concat_map, map_map. f_equal.
    apply map_ext_in. intros k Hk. apply in_seq in Hk.
    apply batch_group_nonempty; [exact HB | unfold m in Hk; lia]. }
  assert (Hne : Forall (fun g => g <> []) groups).
  { unfold groups. apply Forall_forall. intros g Hg.
    apply in_map_iff in Hg. destruct Hg as [k [<- Hk]].
    apply in_seq in Hk.
    apply batch_group_nonempty; [exact HB | unfold m in Hk; lia]. }
  exists (map Loader.default_collate groups).
  split; [|split; [|split; [|split]]].
  - unfold Loader.DataLoader. rewrite py_range_positive by exact HB.
    cbn [bind]. unfold groups. fold m. now rewrite !map_map.
  - unfold groups. rewrite !Forall_map. apply Forall_forall. intros k _.
    apply collate_of_length. now apply Forall_py_slice.
  - unfold groups. now rewrite !length_map, length_seq.
  - rewrite <- Hheads. clear Hheads.
    assert (Hone : forall gs : list (list Windower.Chunk),
              Forall (fun g => g <> []) gs ->
              length (flat_map (firstn 1) gs) = length gs).
    { induction 1 as [|g gs Hg _ IH]; [reflexivity|].
      destruct g; [now elim Hg|].
      change (S (length (flat_map (firstn 1) gs)) = S (length gs)).
      now rewrite IH. }
    rewrite (Hone _ Hne). unfold groups. now rewrite length_map, length_seq.
  - rewrite (inference_loop_groups [] [] [] Hlocal Hshape Hne).
    now rewrite Hheads.
Qed.

End LoopProps.

(** ** More on the transition scan *)

Section ScanViews.
Context {NS : NumpyScalars}.
Import Extractor Views.

Lemma scan_items_returns (curr_series : option string) (items : PredDict)
    (rows out : list PredictionRow) :
  scan_items curr_series items rows = Ok out ->
  Forall (fun kv => preds (snd kv) <> []) items.
Proof.
  revert rows. induction items as [|[sid sd] items IH]; intros rows Hrun.
  - constructor.
  - cbn [scan_items] in Hrun.
    destruct (preds sd) as [|p0 ps] eqn:Hp; [discriminate|].
    cbn [index0 bind] in Hrun. constructor.
    + simpl. rewrite Hp. discriminate.
    + exact (IH _ Hrun).
Qed.

Lemma transition_scan_returns (d : PredDict) (rows : list PredictionRow) :
  transition_scan d = Ok rows ->
  rows = number_rows 0 None (all_events d).
Proof.
  intros Hrun. pose proof (scan_items_returns _ _ _ Hrun) as Hne.
  unfold transition_scan in Hrun.
  rewrite (scan_items_adjacent None [] Hne) in Hrun.
  now injection Hrun as <-.
Qed.

Lemma row_ids_number_rows (n : nat) (sid : option string)
    (evs : list (Z * string)) :
  map row_id (number_rows n sid evs) = seq n (length evs).
Proof.
  revert n. induction evs as [|[st ev] evs IH]; intros n; simpl;
    [reflexivity | now rewrite IH].
Qed.

(** X9.  Row identifiers are dense and zero-based: whenever the scan returns a
    table, the identifier of its [i]-th row is [i], across all series. *)
Theorem row_ids_are_dense (pred_dict : PredDict)
    (rows : list PredictionRow) :
  transition_scan pred_dict = Ok rows ->
  map row_id rows = seq 0 (length rows).
Proof.
  intros Hrun. apply transition_scan_returns in Hrun. subst rows.
  now rewrite row_ids_number_rows, length_number_rows.
Qed.



Lemma number_rows_shift (n : nat) (sid : option string)
    (evs : list (Z * string)) :
  number_rows n sid evs = map (shift_row n) (number_rows 0 sid evs).
Proof.
  revert n. induction evs as [|[st ev] evs IH]; intros n; simpl;
    [reflexivity|].
  unfold shift_row at 1. cbn [row_id series_id step event score].
  rewrite Nat.add_0_r. f_equal.
  rewrite (IH (S n)), (IH 1), map_map.
  apply map_ext. intros r. unfold shift_row. simpl.
  f_equal. lia.
Qed.

(** X11.  Series are scanned independently.  The table of two dicts put one after
    the other is the table of the first followed by the table of the second
    with its row identifiers moved up: the state is read anew at the first
    sample of every series, so no event is emitted from the last sample of
    one series to the first sample of the next. *)
Theorem scan_of_concatenation (d1 d2 : PredDict)
    (rows1 rows2 : list PredictionRow) :
  transition_scan d1 = Ok rows1 ->
  transition_scan d2 = Ok rows2 ->
  transition_scan (d1 ++ d2)
  = Ok (rows1 ++ map (shift_row (length rows1)) rows2).
Proof.
  intros H1 H2.
  pose proof (scan_items_returns _ _ _ H1) as Hne1.
  pose proof (scan_items_returns _ _ _ H2) as Hne2.
  apply transition_scan_returns in H1, H2. subst rows1 rows2.
  unfold transition_scan.
  rewrite scan_items_adjacent
    by (apply Forall_app; split; assumption).
  cbn [app length]. f_equal.
  unfold all_events. rewrite map_app, concat_app, number_rows_app.
  f_equal. rewrite length_number_rows. cbn [Nat.add].
  apply number_rows_shift.
Qed.

Lemma events_number_rows (n : nat) (sid : option string)
    (evs : list (Z * string)) :
  map event (number_rows n sid evs) = map snd evs.
Proof.
  revert n. induction evs as [|[st ev] evs IH]; intros n; simpl;
    [reflexivity | now rewrite IH].
Qed.

Lemma alternating_adjacent_events (p0 : Z) (ps : list Z)
    (steps : list scalar) :
  Forall (fun p => p = 0%Z \/ p = 1%Z) (p0 :: ps) ->
  map snd (adjacent_events (p0 :: ps) steps)
  = alternating_events (length (adjacent_events (p0 :: ps) steps)) p0.
Proof.
  revert p0 steps. induction ps as [|p ps IH]; intros p0 steps Hbin.
  - unfold adjacent_events. simpl. reflexivity.
  - destruct steps as [|s0 [|s1 ss]].
    + now rewrite adjacent_events_no_steps.
    + unfold adjacent_events. simpl. reflexivity.
    + rewrite adjacent_events_cons.
      assert (Hbin' : Forall (fun p => p = 0%Z \/ p = 1%Z) (p :: ps))
        by (now inversion Hbin).
      specialize (IH p (s1 :: ss) Hbin').
      destruct (Z.eqb_spec p p0) as [->|Hne]; cbn [negb app].
      * exact IH.
      * cbn [map snd length alternating_events]. rewrite IH.
        assert (Hflip : (1 - p0 = p)%Z).
        { inversion Hbin as [|? ? H0 Hrest]. inversion Hrest as [|? ? Hp _].
          lia. }
        rewrite Hflip. reflexivity.
Qed.

(** X12.  With binary labels the events of a series alternate: the kinds of the
    rows of one series are exactly [wakeup], [onset], [wakeup], ... when its
    first sample is in state 0, and [onset], [wakeup], [onset], ... when it
    is in state 1. *)
Theorem binary_series_events_alternate (sid : string) (p0 : Z)
    (ps : list Z) (steps : list scalar) (rows : list PredictionRow) :
  Forall (fun p => p = 0%Z \/ p = 1%Z) (p0 :: ps) ->
  transition_scan [(sid, {| preds := p0 :: ps; steps := steps |})] = Ok rows ->
  map event rows = alternating_events (length rows) p0.
Proof.
  intros Hbin Hrun. apply transition_scan_returns in Hrun. subst rows.
  unfold all_events. cbn [map concat snd preds Extractor.steps].
  rewrite app_nil_r, events_number_rows, length_number_rows.
  now apply alternating_adjacent_events.
Qed.

Lemma combine_app_longer {A B : Type} (xs more : list A) (ys : list B) :
  length xs = length ys -> combine (xs ++ more) ys = combine xs ys.
Proof.
  revert ys. induction xs as [|x xs IH]; intros [|y ys] Hlen;
    try discriminate; simpl.
  - now destruct more.
  - f_equal. apply IH. simpl in Hlen. lia.
Qed.

Lemma combine_app_longer_r {A B : Type} (xs : list A) (ys more : list B) :
  length xs = length ys -> combine xs (ys ++ more) = combine xs ys.
Proof.
  revert ys. induction xs as [|x xs IH]; intros [|y ys] Hlen;
    try discriminate; simpl; [reflexivity|].
  f_equal. apply IH. simpl in Hlen. lia.
Qed.

(** X13.  Labels and steps are paired with [zip]: labels that come after the last
    step, and steps that come after the last label, are silently ignored, and
    the table is the same as without them. *)
Theorem scan_ignores_unpaired_tail (before after : PredDict) (sid : string)
    (labels more_labels : list Z) (stps more_steps : list scalar) :
  labels <> [] ->
  length labels = length stps ->
  transition_scan
    (before ++ (sid, {| preds := labels ++ more_labels; steps := stps |})
            :: after)
  = transition_scan
      (before ++ (sid, {| preds := labels; steps := stps |}) :: after) /\
  transition_scan
    (before ++ (sid, {| preds := labels; steps := stps ++ more_steps |})
            :: after)
  = transition_scan
      (before ++ (sid, {| preds := labels; steps := stps |}) :: after).
Proof.
  intros Hne Hlen.
  destruct labels as [|p0 ps]; [now elim Hne|].
  destruct stps as [|s0 ss]; [discriminate|].
  assert (Hlen' : length ps = length ss) by (simpl in Hlen; lia).
  unfold transition_scan. rewrite !scan_items_app.
  destruct (scan_items None before []) as [rows|e]; cbn [bind];
    [|split; reflexivity].
  cbn [scan_items preds Extractor.steps app index0 bind tl].
  rewrite (combine_app_longer ps more_labels ss Hlen').
  rewrite (combine_app_longer_r ps ss more_steps Hlen').
  split; reflexivity.
Qed.

Lemma adjacent_events_nil_iff (p0 : Z) (ps : list Z) (s0 : scalar)
    (ss : list scalar) :
  length ps = length ss ->
  (adjacent_events (p0 :: ps) (s0 :: ss) = [] <-> Forall (fun p => p = p0) ps).
Proof.
  revert p0 s0 ss. induction ps as [|p ps IH]; intros p0 s0 ss Hlen.
  - split; [constructor | reflexivity].
  - destruct ss as [|s1 ss]; [discriminate|].
    rewrite adjacent_events_cons.
    assert (Hlen' : length ps = length ss) by (simpl in Hlen; lia).
    destruct (Z.eqb_spec p p0) as [->|Hne]; cbn [negb app].
    + rewrite (IH p0 s1 ss Hlen'). split.
      * intros H. now constructor.
      * intros H. now inversion H.
    + split; [discriminate|]. intros H. inversion H. contradiction.
Qed.

(** X14.  A series emits no event exactly when it never changes state: for a
    series with as many labels as steps, the table is empty if and only if
    every label equals the first one. *)
Theorem no_event_iff_constant (sid : string) (p0 : Z) (ps : list Z)
    (s0 : scalar) (ss : list scalar) :
  length ps = length ss ->
  (transition_scan [(sid, {| preds := p0 :: ps; steps := s0 :: ss |})] = Ok []
   <-> Forall (fun p => p = p0) ps).
Proof.
  intros Hlen. unfold transition_scan.
  rewrite scan_items_adjacent
    by (constructor; [simpl; discriminate | constructor]).
  cbn [app length map concat snd preds Extractor.steps].
  rewrite app_nil_r, <- (@adjacent_events_nil_iff p0 ps s0 ss Hlen).
  split.
  - intros [= H].
    destruct (adjacent_events (p0 :: ps) (s0 :: ss)) as [|[st ev] evs];
      [reflexivity | discriminate].
  - intros ->. reflexivity.
Qed.

End ScanViews.

(** ** Evaluation *)

Section EvaluationProps.
Context {NS : NumpyScalars}.
Import Evaluation.

Variable model : list (list (scalar * scalar)) -> outcome (list (list Z)).
Variable to_long : scalar -> Z.
Variable Score : Type.
Variable precision_score recall_score f1_score : list Z -> list Z -> outcome Score.

Lemma count_true_le (mask : list bool) : count_true mask <= length mask.
Proof. unfold count_true. apply filter_length_le. Qed.

Lemma tensor_eq_same_size (a b : list Z) (mask : list bool) :
  length a = length b ->
  tensor_eq a b = Returns mask ->
  length mask = length b.
Proof.
  intros Hlen. unfold tensor_eq.
  rewrite (proj2 (Nat.eqb_eq _ _) Hlen).
  intros [= <-]. rewrite length_map, length_combine. lia.
Qed.

Lemma length_concat_rectangular (C : nat) (rows : list (list Z)) :
  rectangular C rows = true -> length (concat rows) = length rows * C.
Proof.
  unfold rectangular. induction rows as [|row rows IH]; simpl;
    [reflexivity|].
  intros H. apply andb_true_iff in H. destruct H as [Hrow Hrest].
  apply Nat.eqb_eq in Hrow. rewrite length_app, IH, Hrow by exact Hrest.
  reflexivity.
Qed.

Lemma length_concat_transpose (C : nat) (rows : list (list Z)) :
  length (concat (transpose C rows)) = C * length rows.
Proof.
  unfold transpose. generalize 0 as a.
  induction C as [|C IH]; intros a; [reflexivity|].
  simpl. now rewrite length_app, length_map, IH.
Qed.

(** What a returning loop has seen and counted. *)
Lemma test_loop_returns (loader : list LabelledBatch) (t0 t : Tally) :
  test_loop model to_long loader t0 = Returns t ->
  Forall (fun batch => label batch <> None) loader /\
  total_samples t = total_samples t0 + label_total loader /\
  length (all_labels t) = length (all_labels t0) + label_total loader /\
  (shapes_agree model loader ->
   correct_predictions t <= correct_predictions t0 + label_total loader).
Proof.
  revert t0. induction loader as [|b loader IH]; intros t0 Hrun.
  - injection Hrun as <-. unfold label_total. simpl.
    repeat split; try constructor; lia.
  - cbn [test_loop] in Hrun. unfold test_batch in Hrun.
    assert (Hsum : label_total (b :: loader)
                   = label_count b + label_total loader) by reflexivity.
    rewrite Hsum. clear Hsum. unfold label_count.
    destruct (label b) as [l|] eqn:Hl; cbn [and_then] in Hrun;
      [|discriminate].
    destruct (model (data b)) as [logits|e] eqn:Hm; cbn [and_then] in Hrun;
      [|discriminate].
    destruct (np_array_T logits) as [lt|e] eqn:Hnp; cbn [and_then] in Hrun;
      [|discriminate].
    destruct (tensor_eq (concat lt) (concat (map (map to_long) l)))
      as [mask|e] eqn:Hmask; cbn [and_then] in Hrun; [|discriminate].
    apply IH in Hrun. cbn [total_samples all_labels correct_predictions]
      in Hrun.
    destruct Hrun as [Hall [Htot [Hlab Hcorr]]].
    assert (Hflat : length (concat (map (map to_long) l))
                    = length (concat l)).
    { rewrite <- concat_map, length_map. reflexivity. }
    repeat split.
    + constructor; [congruence | exact Hall].
    + rewrite Htot, Hflat. lia.
    + rewrite Hlab, length_app, Hflat. lia.
    + intros Hshape. inversion Hshape as [|? ? Hb Hrest]; subst.
      specialize (Hcorr Hrest).
      assert (Hsize : length (concat lt)
                      = length (concat (map (map to_long) l))).
      { rewrite Hflat, <- (Hb logits l Hm Hl).
        unfold np_array_T in Hnp.
        destruct (rectangular (length (hd [] logits)) logits) eqn:Hrect;
          [|discriminate].
        injection Hnp as <-.
        rewrite (length_concat_rectangular _ _ Hrect).
        rewrite length_concat_transpose. lia. }
      pose proof (tensor_eq_same_size _ _ Hsize Hmask) as Hmlen.
      pose proof (count_true_le mask). rewrite Hflat in Hmlen. lia.
Qed.

(** X15.  When [test_model] returns, every batch had the key ['label'], the
    loader held at least one label, and the accuracy is a count of correct
    predictions over the number of all labels: it is never negative, and it
    is at most 1 if in every batch the model returned as many labels as the
    batch has. *)
Theorem test_model_accuracy_is_a_fraction (loader : list LabelledBatch)
    (accuracy : Q) (precision recall f1 : Score) :
  test_model model to_long precision_score recall_score f1_score loader
  = Returns (accuracy, precision, recall, f1) ->
  Forall (fun batch => label batch <> None) loader /\
  0 < label_total loader /\
  Qden accuracy = Pos.of_nat (label_total loader) /\
  (0 <= accuracy)%Q /\
  (shapes_agree model loader -> (accuracy <= 1)%Q).
Proof.
  unfold test_model. intros Hrun.
  destruct (test_loop model to_long loader _) as [t|e] eqn:Hloop;
    cbn [and_then] in Hrun; [|discriminate].
  apply test_loop_returns in Hloop.
  cbn [total_samples all_labels correct_predictions length Nat.add] in Hloop.
  destruct Hloop as [Hall [Htot [_ Hcorr]]].
  destruct (Nat.eqb_spec (total_samples t) 0) as [Hz|Hnz];
    cbn [and_then] in Hrun; [discriminate|].
  destruct (precision_score _ _); cbn [and_then] in Hrun; [|discriminate].
  destruct (recall_score _ _); cbn [and_then] in Hrun; [|discriminate].
  destruct (f1_score _ _); cbn [and_then] in Hrun; [|discriminate].
  injection Hrun as <- _ _ _.
  rewrite Htot in *. repeat split.
  - exact Hall.
  - lia.
  - unfold Qle. simpl. lia.
  - intros Hshape. specialize (Hcorr Hshape).
    unfold Qle. simpl. rewrite Z.mul_1_r.
    rewrite <- positive_nat_Z, Nat2Pos.id by lia. lia.
Qed.

Lemma map_nth_seq {A : Type} (l : list A) (d : A) :
  map (fun j => nth j l d) (seq 0 (length l)) = l.
Proof.
  induction l as [|x l IH]; [reflexivity|].
  cbn [length seq map nth]. f_equal.
  rewrite <- seq_shift, map_map. exact IH.
Qed.

Lemma rectangular_row (C : nat) (rows : list (list Z)) (i : nat) :
  rectangular C rows = true -> i < length rows ->
  length (nth i rows []) = C.
Proof.
  unfold rectangular. rewrite forallb_forall. intros Hrect Hi.
  apply Nat.eqb_eq, Hrect, nth_In, Hi.
Qed.

(** Transposing twice gives the entries back in their order. *)
Lemma np_array_T_transpose (W : nat) (rows : list (list Z)) :
  rectangular W rows = true ->
  exists back,
    np_array_T (transpose W rows) = Returns back /\
    concat back = concat rows.
Proof.
  intros Hrect. unfold np_array_T.
  destruct W as [|w].
  - cbn [transpose seq map hd length rectangular forallb].
    exists []. split; [reflexivity|].
    pose proof (length_concat_rectangular _ _ Hrect) as Hlen.
    rewrite Nat.mul_0_r in Hlen.
    destruct (concat rows); [reflexivity | discriminate].
  - assert (Hhd : length (hd [] (transpose (S w) rows)) = length rows).
    { unfold transpose. cbn [seq map hd]. apply length_map. }
    rewrite Hhd.
    assert (Hall : rectangular (length rows) (transpose (S w) rows) = true).
    { unfold rectangular, transpose. apply forallb_forall.
      intros row Hrow. apply in_map_iff in Hrow.
      destruct Hrow as [j [<- _]]. rewrite length_map.
      apply Nat.eqb_refl. }
    rewrite Hall. eexists. split; [reflexivity|]. f_equal.
    transitivity (map (fun i => nth i rows []) (seq 0 (length rows)));
      [|apply map_nth_seq].
    unfold transpose at 1.
    apply map_ext_in. intros i Hi. apply in_seq in Hi.
    unfold transpose. rewrite map_map.
    rewrite <- (map_nth_seq (nth i rows []) 0%Z).
    rewrite (rectangular_row _ _ Hrect) by lia.
    apply map_ext. intros j.
    rewrite (nth_indep _ 0%Z (nth j [] 0%Z))
      by (rewrite length_map; lia).
    apply (map_nth (fun row => nth j row 0%Z)).
Qed.

Lemma tensor_eq_refl (a : list Z) :
  exists mask, tensor_eq a a = Returns mask /\ count_true mask = length a.
Proof.
  unfold tensor_eq. rewrite Nat.eqb_refl. eexists. split; [reflexivity|].
  unfold count_true. induction a as [|x a IH]; [reflexivity|].
  simpl. rewrite Z.eqb_refl. simpl. now rewrite IH.
Qed.

Lemma test_loop_step_major (loader : list LabelledBatch) (t0 : Tally) :
  answers_step_major model to_long loader ->
  exists t,
    test_loop model to_long loader t0 = Returns t /\
    correct_predictions t = correct_predictions t0 + label_total loader /\
    total_samples t = total_samples t0 + label_total loader /\
    (all_preds t0 = all_labels t0 -> all_preds t = all_labels t).
Proof.
  intros Hans. revert t0.
  induction Hans as [|b loader [l [W [Hl [Hrect Hm]]]] _ IH]; intros t0.
  - exists t0. unfold label_total. simpl. repeat split; auto.
  - cbn [test_loop]. unfold test_batch. rewrite Hl, Hm. cbn [and_then].
    destruct (np_array_T_transpose _ _ Hrect) as [back [-> Hback]].
    cbn [and_then]. rewrite Hback.
    destruct (tensor_eq_refl (concat (map (map to_long) l)))
      as [mask [-> Hcount]].
    cbn [and_then].
    match goal with
    | |- context [test_loop _ _ _ ?t1] => destruct (IH t1) as [t [Hrun H]]
    end.
    cbn [correct_predictions total_samples all_preds all_labels] in H.
    destruct H as [Hc [Ht Heq]].
    exists t. split; [exact Hrun|].
    assert (Hsum : label_total (b :: loader)
                   = label_count b + label_total loader) by reflexivity.
    assert (Hcnt : label_count b = length (concat (map (map to_long) l))).
    { unfold label_count. rewrite Hl, <- concat_map, length_map.
      reflexivity. }
    rewrite Hsum, Hcnt. repeat split.
    + rewrite Hc, Hcount. lia.
    + rewrite Ht. lia.
    + intros H0. apply Heq. now rewrite H0.
Qed.

(** X16.  [test_model] reads the answer of the model step by step.  If for every
    batch the model returns the true labels laid out step-major (list [j]
    holds the labels of step [j] of all the windows of the batch), every
    prediction is counted as correct: the accuracy is 1. *)
Theorem step_major_answers_score_one (loader : list LabelledBatch) :
  answers_step_major model to_long loader ->
  0 < label_total loader ->
  (forall a b, exists s, precision_score a b = Returns s) ->
  (forall a b, exists s, recall_score a b = Returns s) ->
  (forall a b, exists s, f1_score a b = Returns s) ->
  exists accuracy precision recall f1,
    test_model model to_long precision_score recall_score f1_score loader
    = Returns (accuracy, precision, recall, f1) /\
    (accuracy == 1)%Q.
Proof.
  intros Hans Hpos Hp Hr Hf. unfold test_model.
  destruct (test_loop_step_major
              {| correct_predictions := 0; total_samples := 0;
                 all_preds := []; all_labels := [] |} Hans)
    as [t [-> [Hc [Ht _]]]].
  cbn [correct_predictions total_samples Nat.add] in Hc, Ht.
  cbn [and_then]. rewrite Hc, Ht.
  destruct (Nat.eqb_spec (label_total loader) 0) as [Hz|_]; [lia|].
  cbn [and_then].
  destruct (Hp (all_labels t) (all_preds t)) as [p ->].
  destruct (Hr (all_labels t) (all_preds t)) as [r ->].
  destruct (Hf (all_labels t) (all_preds t)) as [f ->].
  cbn [and_then]. eexists _, p, r, f. split; [reflexivity|].
  unfold Qeq. simpl.
  rewrite Z.mul_1_r, <- positive_nat_Z, Nat2Pos.id by lia. lia.
Qed.

End EvaluationProps.

(** ** The checkpoint rule *)

Section CheckpointProps.
Import Evaluation.

Lemma checkpoints_keep_invariant (rest done : list Q) (b : Q)
    (sv : list nat) (best : Q) (saved : list nat) :
  checkpoint_invariant done b sv ->
  checkpoints rest (length done) b sv = (best, saved) ->
  checkpoint_invariant (done ++ rest) best saved.
Proof.
  revert done b sv. induction rest as [|f rest IH]; intros done b sv Hinv.
  - simpl. intros [= <- <-]. now rewrite app_nil_r.
  - cbn [checkpoints]. destruct Hinv as [Hall Hsv].
    assert (Hb0 : (0 <= b)%Q).
    { destruct sv as [|e sv]; [subst b; apply Qle_refl|].
      apply Qlt_le_weak, Hsv. }
    assert (Hstep : forall b' sv',
              checkpoint_invariant (done ++ [f]) b' sv' ->
              checkpoints rest (S (length done)) b' sv' = (best, saved) ->
              checkpoint_invariant (done ++ f :: rest) best saved).
    { intros b' sv' Hinv' Hrun.
      replace (done ++ f :: rest) with ((done ++ [f]) ++ rest)
        by (now rewrite <- app_assoc).
      apply (IH (done ++ [f]) b' sv' Hinv').
      rewrite length_app. cbn [length]. now rewrite Nat.add_1_r. }
    destruct (Qle_bool f b) eqn:Hle; apply Hstep.
    + apply Qle_bool_iff in Hle. split.
      * apply Forall_app. split; [exact Hall | now constructor].
      * destruct sv as [|e sv]; [exact Hsv|].
        destruct Hsv as [Hpos [He Hfirst]].
        assert (e < length done) by (apply nth_error_Some; congruence).
        split; [exact Hpos|]. split.
        -- now rewrite nth_error_app1.
        -- intros e' g He' Hg. rewrite nth_error_app1 in Hg by lia.
           exact (Hfirst e' g He' Hg).
    + assert (Hlt : (b < f)%Q).
      { apply Qnot_le_lt. intros Hc. apply Qle_bool_iff in Hc. congruence. }
      split.
      * apply Forall_app. split.
        -- apply Forall_impl with (2 := Hall). intros g Hg.
           apply Qlt_le_weak. now apply Qle_lt_trans with b.
        -- constructor; [apply Qle_refl | constructor].
      * split; [now apply Qle_lt_trans with b|]. split.
        -- rewrite nth_error_app2 by lia. now rewrite Nat.sub_diag.
        -- intros e' g He' Hg. rewrite nth_error_app1 in Hg by lia.
           apply nth_error_In in Hg. rewrite Forall_forall in Hall.
           apply Qle_lt_trans with b; [now apply Hall | exact Hlt].
Qed.

(** X17.  Which checkpoint is on disk after training.  [best_f1] ends as the
    largest validation score, or as its initial 0 if no score is above 0,
    in which case [torch.save] was never called.  Otherwise the file saved
    last is that of the first epoch which reached the largest score: a later
    epoch with an equal score does not replace it. *)
Theorem last_checkpoint_is_first_best (f1s : list Q) (best : Q)
    (saved : list nat) :
  checkpoints f1s 0 0 [] = (best, saved) ->
  Forall (fun f => (f <= best)%Q) f1s /\
  (saved = [] -> best = 0%Q) /\
  (forall e older,
      saved = e :: older ->
      (0 < best)%Q /\
      nth_error f1s e = Some best /\
      forall e' f, e' < e -> nth_error f1s e' = Some f -> (f < best)%Q).
Proof.
  intros Hrun.
  assert (Hinv : checkpoint_invariant [] 0 [])
    by (split; [constructor | reflexivity]).
  pose proof (checkpoints_keep_invariant f1s Hinv Hrun) as [Hall Hsv].
  cbn [app] in *. split; [exact Hall|]. split.
  - intros ->. exact Hsv.
  - intros e older ->. exact Hsv.
Qed.

End CheckpointProps.

(** ** Runs of the further properties *)

Section FurtherRuns.
Import Windower Dataset Extractor Views Evaluation Examples.

(** X1 on a concrete input. *)
Lemma dataset_length_is_sum_of_quotients_witness :
  exists self,
    init always_quit demo_frame 2 false = ([], Ok self) /\
    len self
    = list_sum (map (fun sid => length (select_series demo_frame sid) / 2)
                    (unique (map col_series_id demo_frame))).
Proof.
  apply (@dataset_length_is_sum_of_quotients exact_scalars always_quit
           demo_frame 2 false); [lia | reflexivity].
Defined.

(** X2 on a concrete input. *)
Lemma dataset_getitem_is_window_witness :
  exists self,
    init always_quit demo_frame 2 false = ([], Ok self) /\
    getitem self (Z.of_nat (window_total demo_frame 2 ["s1"] + 0))
    = Ok (window_at 2 false demo_frame "s2" 0) /\
    getitem self (Z.of_nat (window_total demo_frame 2 ["s1"] + 0)
                  - Z.of_nat (len self))
    = Ok (window_at 2 false demo_frame "s2" 0).
Proof.
  apply (@dataset_getitem_is_window exact_scalars always_quit demo_frame 2
           false ["s1"] "s2" [] 0).
  - lia.
  - reflexivity.
  - reflexivity.
  - vm_compute. lia.
Defined.

(** X3 on a concrete input. *)
Lemma zero_sequence_length_raises_witness :
  (snd (preprocess_data always_resume bad_frame 0 true) = Raise ValueError \/
   snd (preprocess_data always_resume bad_frame 0 true) = Raise BdbQuit) /\
  (timestamps_wellformed bad_frame ->
   preprocess_data always_resume bad_frame 0 true = ([], Raise ValueError)).
Proof.
  apply (@zero_sequence_length_raises exact_scalars always_resume bad_frame
           true).
  discriminate.
Defined.

(** X4 on a concrete input. *)
Lemma first_series_malformed_resumed_raises_witness :
  preprocess_data always_resume bad_first_frame 2 true
  = (["s2"], Raise UnboundLocalError).
Proof.
  apply (@first_series_malformed_resumed_raises exact_scalars always_resume
           bad_first_frame 2 true "s2" ["s1"]).
  - lia.
  - reflexivity.
  - reflexivity.
  - reflexivity.
Defined.

(** X5 on a concrete input: the frame of two series and the same frame
    with other labels. *)
Lemma test_mode_never_reads_labels_witness :
  preprocess_data always_quit demo_frame 2 true
  = preprocess_data always_quit relabelled_frame 2 true /\
  preprocess_data always_quit demo_frame 2 true
  = (fst (preprocess_data always_quit relabelled_frame 2 false),
     chunks <- snd (preprocess_data always_quit relabelled_frame 2 false) ;;
     Ok (map erase_label chunks)).
Proof.
  apply (@test_mode_never_reads_labels exact_scalars always_quit demo_frame
           relabelled_frame 2).
  reflexivity.
Defined.

(** X6 on a concrete input. *)
Lemma resumed_breakpoints_reuse_timestamps_witness :
  exists chunks,
    preprocess_data always_resume bad_frame 2 true
    = (filter (series_malformedb bad_frame) ["s1"; "s2"], Ok chunks) /\
    forall pre sid post,
      ["s1"; "s2"] = pre ++ sid :: post ->
      exists ts,
        timestamp_in_use bad_frame None (pre ++ [sid]) = Some ts /\
        windows_of sid chunks
        = map (window_with 2 true bad_frame sid ts)
              (seq 0 (length (select_series bad_frame sid) / 2)).
Proof.
  apply (@resumed_breakpoints_reuse_timestamps exact_scalars always_resume
           bad_frame 2 true "s1" ["s2"]).
  - lia.
  - reflexivity.
  - unfold series_malformed. simpl. discriminate.
  - intros sid _. reflexivity.
Defined.

(** X7 on a concrete input. *)
Lemma inference_accumulators_aligned_witness :
  length (snd (fst boundary_collected))
  = length (fst (fst boundary_collected)) /\
  (Forall (fun b => length (batch_steps b)
                    = length (batch_labels sign_labels b))
          (loader_of boundary_chunks 2) ->
   length (snd boundary_collected) = length (fst (fst boundary_collected))).
Proof.
  apply (@inference_accumulators_aligned exact_scalars sign_labels
           (loader_of boundary_chunks 2)).
  reflexivity.
Defined.

(** X8 on a concrete input. *)
Lemma inference_keeps_one_window_per_batch_witness :
  exists loader,
    Loader.DataLoader demo_chunks 2 = Ok loader /\
    Forall (batch_of_length 2) loader /\
    length loader = (length demo_chunks + (2 - 1)) / 2 /\
    length (batch_heads 2 demo_chunks) = (length demo_chunks + (2 - 1)) / 2 /\
    inference_loop sign_labels loader [] [] []
    = Ok (concat (map (window_labels sign_labels)
                      (batch_heads 2 demo_chunks)),
          concat (map (fun c => repeat (Windower.series_id c)
                                  (length (Windower.data c)))
                      (batch_heads 2 demo_chunks)),
          concat (map Windower.step (batch_heads 2 demo_chunks))).
Proof.
  apply (@inference_keeps_one_window_per_batch exact_scalars sign_labels
           demo_chunks 2 2).
  - lia.
  - unfold windows_of_length. repeat constructor.
  - exact sign_labels_first_row_local.
  - exact sign_labels_one_label_per_step.
Defined.

(** X9 on a concrete input. *)
Lemma row_ids_are_dense_witness :
  map row_id s1_rows = seq 0 (length s1_rows).
Proof.
  apply (@row_ids_are_dense exact_scalars s1_cleaned). reflexivity.
Defined.


(** X11 on a concrete input. *)
Lemma scan_of_concatenation_witness :
  transition_scan (s1_cleaned ++ s1_cleaned)
  = Ok (s1_rows ++ map (shift_row (length s1_rows)) s1_rows).
Proof.
  apply (@scan_of_concatenation exact_scalars); reflexivity.
Defined.

(** X12 on a concrete input. *)
Lemma binary_series_events_alternate_witness :
  map event s1_rows = alternating_events (length s1_rows) 0.
Proof.
  apply (@binary_series_events_alternate exact_scalars "s1" 0%Z
           [0; 1; 1; 0]%Z [10#1; 20#1; 30#1; 40#1; 50#1]).
  - repeat (apply Forall_cons; [lia|]). apply Forall_nil.
  - reflexivity.
Defined.

(** X13 on a concrete input. *)
Lemma scan_ignores_unpaired_tail_witness :
  transition_scan
    ([] ++ ("s1", {| preds := [0; 1]%Z ++ [0; 1]%Z;
                     steps := [10#1; 20#1] |}) :: [])
  = transition_scan
      ([] ++ ("s1", {| preds := [0; 1]%Z; steps := [10#1; 20#1] |}) :: []) /\
  transition_scan
    ([] ++ ("s1", {| preds := [0; 1]%Z;
                     steps := [10#1; 20#1] ++ [30#1] |}) :: [])
  = transition_scan
      ([] ++ ("s1", {| preds := [0; 1]%Z; steps := [10#1; 20#1] |}) :: []).
Proof.
  apply (@scan_ignores_unpaired_tail exact_scalars [] [] "s1").
  - discriminate.
  - reflexivity.
Defined.

(** X14 on a concrete input. *)
Lemma no_event_iff_constant_witness :
  transition_scan [("s1", {| preds := [1; 1; 1]%Z;
                             steps := [10#1; 20#1; 30#1] |})] = Ok []
  <-> Forall (fun p => p = 1%Z) [1; 1]%Z.
Proof.
  apply (@no_event_iff_constant exact_scalars "s1" 1%Z [1; 1]%Z (10#1)
           [20#1; 30#1]).
  reflexivity.
Defined.

(** X15 on a concrete input. *)
Lemma test_model_accuracy_is_a_fraction_witness :
  Forall (fun batch => label batch <> None) [eval_batch] /\
  0 < label_total [eval_batch] /\
  Qden (4 # 4) = Pos.of_nat (label_total [eval_batch]) /\
  (0 <= 4 # 4)%Q /\
  (shapes_agree step_major_model [eval_batch] -> (4 # 4 <= 1)%Q).
Proof.
  apply (@test_model_accuracy_is_a_fraction exact_scalars step_major_model
           py_int unit unit_score unit_score unit_score [eval_batch]
           (4 # 4) tt tt tt).
  reflexivity.
Defined.

(** X16 on a concrete input. *)
Lemma step_major_answers_score_one_witness :
  exists accuracy precision recall f1,
    test_model step_major_model py_int unit_score unit_score unit_score
               [eval_batch]
    = Returns (accuracy, precision, recall, f1) /\
    (accuracy == 1)%Q.
Proof.
  apply (@step_major_answers_score_one exact_scalars step_major_model
           py_int unit unit_score unit_score unit_score [eval_batch]).
  - constructor; [|constructor].
    exists [ [0#1; 1#1]; [0#1; 1#1] ], 2. repeat split.
  - vm_compute. lia.
  - intros a b. exists tt. reflexivity.
  - intros a b. exists tt. reflexivity.
  - intros a b. exists tt. reflexivity.
Defined.

(** X17 on a concrete input. *)
Lemma last_checkpoint_is_first_best_witness :
  Forall (fun f => (f <= 7 # 10)%Q) demo_f1s /\
  ([1; 0] = [] -> 7 # 10 = 0%Q) /\
  (forall e older,
      [1; 0] = e :: older ->
      (0 < 7 # 10)%Q /\
      nth_error demo_f1s e = Some (7 # 10) /\
      forall e' f, e' < e -> nth_error demo_f1s e' = Some f -> (f < 7 # 10)%Q).
Proof.
  apply (@last_checkpoint_is_first_best demo_f1s (7 # 10) [1; 0]).
  reflexivity.
Defined.

End FurtherRuns.
